(** * Player3D: a 3D model player over three.js and WebGL

    A shallow embedding of [client/src/app/libs/player/Player3D.js].

    The player is a single mutable object (the source's [this], captured as
    [context] by its closures) that lives in a browser page.  The page is
    modelled by a [World]: the player object plus what the browser keeps for
    it between two turns of the event loop (the console, the loads in flight,
    the animation-frame queue, the timers) and the list of calls made to the
    collaborators, in the order they were made.

    JavaScript numbers are IEEE 754 binary64 values: they are Rocq's primitive
    floats, so every arithmetic expression of the source evaluates here to the
    value it has in the browser. *)

From Stdlib Require Import ZArith Floats Uint63 List String Bool Lia.
Import ListNotations.

#[local] Set Warnings "-inexact-float".

Local Open Scope float_scope.

(** ** JavaScript values *)

Definition number := float.

(** A property that may not have been assigned yet. *)
Inductive value :=
| Undefined
| Number (n : number).

(** ToNumber of the language: [undefined] converts to NaN. *)
Definition ToNumber (v : value) : number :=
  match v with
  | Undefined => nan
  | Number n => n
  end.

(** [===] on numbers: NaN differs from itself, the two zeros are equal. *)
Definition strict_equals (a b : number) : bool := PrimFloat.eqb a b.

(** A DOM [long] (offsetWidth, clientX, clientY) read as a number. *)
Definition num_of_Z (z : Z) : number :=
  if (z <? 0)%Z then - PrimFloat.of_uint63 (Uint63.of_Z (- z))
  else PrimFloat.of_uint63 (Uint63.of_Z z).

(** The operands of a string concatenation [s + v + ...], kept in order:
    a literal, or a value still to be converted by ToString. *)
Inductive piece :=
| Lit (s : string)
| Str (v : value).

Definition text := list piece.

(** ** three.js: vectors, boxes and loaded objects *)

Record Vector3 := vec3 { vx : number; vy : number; vz : number }.

Definition origin : Vector3 := vec3 0 0 0.

(** [Math.min] and [Math.max]: NaN if an argument is, and of the two zeros
    the negative one is the smaller. *)
Definition Math_min (a b : number) : number :=
  if is_nan a || is_nan b then nan
  else if a <? b then a
  else if b <? a then b
  else if get_sign a then a else b.

Definition Math_max (a b : number) : number :=
  if is_nan a || is_nan b then nan
  else if b <? a then a
  else if a <? b then b
  else if get_sign a then b else a.

Definition addVectors (a b : Vector3) : Vector3 :=
  vec3 (vx a + vx b) (vy a + vy b) (vz a + vz b).

Definition subVectors (a b : Vector3) : Vector3 :=
  vec3 (vx a - vx b) (vy a - vy b) (vz a - vz b).

Definition multiplyScalar (a : Vector3) (k : number) : Vector3 :=
  vec3 (vx a * k) (vy a * k) (vz a * k).

Definition Vector3_min (a b : Vector3) : Vector3 :=
  vec3 (Math_min (vx a) (vx b)) (Math_min (vy a) (vy b)) (Math_min (vz a) (vz b)).

Definition Vector3_max (a b : Vector3) : Vector3 :=
  vec3 (Math_max (vx a) (vx b)) (Math_max (vy a) (vy b)) (Math_max (vz a) (vz b)).

(** A 4x4 matrix, its elements named by row and column. *)
Record Matrix4 := mat4 {
  n11 : number; n12 : number; n13 : number; n14 : number;
  n21 : number; n22 : number; n23 : number; n24 : number;
  n31 : number; n32 : number; n33 : number; n34 : number;
  n41 : number; n42 : number; n43 : number; n44 : number }.

Definition Matrix4_identity : Matrix4 :=
  mat4 1 0 0 0
       0 1 0 0
       0 0 1 0
       0 0 0 1.

(** [compose] of a position with the default rotation and scale. *)
Definition compose (p : Vector3) : Matrix4 :=
  mat4 1 0 0 (vx p)
       0 1 0 (vy p)
       0 0 1 (vz p)
       0 0 0 1.

Definition multiplyMatrices (a b : Matrix4) : Matrix4 :=
  mat4
    (n11 a * n11 b + n12 a * n21 b + n13 a * n31 b + n14 a * n41 b)
    (n11 a * n12 b + n12 a * n22 b + n13 a * n32 b + n14 a * n42 b)
    (n11 a * n13 b + n12 a * n23 b + n13 a * n33 b + n14 a * n43 b)
    (n11 a * n14 b + n12 a * n24 b + n13 a * n34 b + n14 a * n44 b)
    (n21 a * n11 b + n22 a * n21 b + n23 a * n31 b + n24 a * n41 b)
    (n21 a * n12 b + n22 a * n22 b + n23 a * n32 b + n24 a * n42 b)
    (n21 a * n13 b + n22 a * n23 b + n23 a * n33 b + n24 a * n43 b)
    (n21 a * n14 b + n22 a * n24 b + n23 a * n34 b + n24 a * n44 b)
    (n31 a * n11 b + n32 a * n21 b + n33 a * n31 b + n34 a * n41 b)
    (n31 a * n12 b + n32 a * n22 b + n33 a * n32 b + n34 a * n42 b)
    (n31 a * n13 b + n32 a * n23 b + n33 a * n33 b + n34 a * n43 b)
    (n31 a * n14 b + n32 a * n24 b + n33 a * n34 b + n34 a * n44 b)
    (n41 a * n11 b + n42 a * n21 b + n43 a * n31 b + n44 a * n41 b)
    (n41 a * n12 b + n42 a * n22 b + n43 a * n32 b + n44 a * n42 b)
    (n41 a * n13 b + n42 a * n23 b + n43 a * n33 b + n44 a * n43 b)
    (n41 a * n14 b + n42 a * n24 b + n43 a * n34 b + n44 a * n44 b).

Definition applyMatrix4 (m : Matrix4) (v : Vector3) : Vector3 :=
  let w := 1 / (n41 m * vx v + n42 m * vy v + n43 m * vz v + n44 m) in
  vec3 ((n11 m * vx v + n12 m * vy v + n13 m * vz v + n14 m) * w)
       ((n21 m * vx v + n22 m * vy v + n23 m * vz v + n24 m) * w)
       ((n31 m * vx v + n32 m * vy v + n33 m * vz v + n34 m) * w).

(** What a geometry loader hands to its completion callback: a node with a
    position and, below it, meshes with their vertices.  OBJLoader leaves
    the rotation and the scale of the node, and the whole transform of the
    meshes, at their defaults, and the player never touches them. *)
Record Object3D := {
  position : Vector3;
  geometry : list Vector3 }.

(** The world matrix of the meshes of a node that has no parent: the matrix
    of the node, composed from its position, times their own, which is the
    identity. *)
Definition matrixWorld (o : Object3D) : Matrix4 :=
  multiplyMatrices (compose (position o)) Matrix4_identity.

Definition set_position_y (o : Object3D) (y : number) : Object3D :=
  {| position := vec3 (vx (position o)) y (vz (position o));
     geometry := geometry o |}.

Record Box3 := { box_min : Vector3; box_max : Vector3 }.

(** [new Box3()]: the empty box. *)
Definition Box3_new : Box3 :=
  {| box_min := vec3 infinity infinity infinity;
     box_max := vec3 neg_infinity neg_infinity neg_infinity |}.

Definition expandByPoint (b : Box3) (p : Vector3) : Box3 :=
  {| box_min := Vector3_min (box_min b) p;
     box_max := Vector3_max (box_max b) p |}.

(** [setFromObject]: the box of the vertices, each placed in the world by
    the world matrix of its mesh. *)
Definition setFromObject (o : Object3D) : Box3 :=
  fold_left expandByPoint
    (map (applyMatrix4 (matrixWorld o)) (geometry o)) Box3_new.

Definition isEmpty (b : Box3) : bool :=
  (vx (box_max b) <? vx (box_min b))
  || (vy (box_max b) <? vy (box_min b))
  || (vz (box_max b) <? vz (box_min b)).

Definition getSize (b : Box3) : Vector3 :=
  if isEmpty b then origin else subVectors (box_max b) (box_min b).

Definition getCenter (b : Box3) : Vector3 :=
  if isEmpty b then origin
  else multiplyScalar (addVectors (box_min b) (box_max b)) 0.5.

(** ** three.js: lights, camera, scene, renderer *)

Inductive Light :=
| AmbientLight (color intensity : number)
| PointLight (color intensity : number).

(** [projection_aspect] is the aspect ratio the projection matrix was last
    computed from (by the constructor or by [updateProjectionMatrix]);
    [looking_at] is the last target given to [lookAt]. *)
Record PerspectiveCamera := {
  fov : number;
  aspect : number;
  near : number;
  far : number;
  camera_position : Vector3;
  camera_children : list Light;
  projection_aspect : number;
  looking_at : option Vector3 }.

Definition PerspectiveCamera_new (fov aspect near far : number) : PerspectiveCamera :=
  {| fov := fov; aspect := aspect; near := near; far := far;
     camera_position := origin; camera_children := [];
     projection_aspect := aspect; looking_at := None |}.

(** The children of the scene.  The camera is an object of its own, shared
    with the player: the scene holds a reference to it, not a copy. *)
Inductive SceneNode :=
| light_node (l : Light)
| camera_node
| model_node (o : Object3D).

Record Scene := {
  scene_position : Vector3;
  scene_children : list SceneNode }.

Definition Scene_new : Scene :=
  {| scene_position := origin; scene_children := [] |}.

Definition Scene_add (n : SceneNode) (s : Scene) : Scene :=
  {| scene_position := scene_position s;
     scene_children := scene_children s ++ [n] |}.

Record WebGLRenderer := {
  pixelRatio : number;
  size_width : number;
  size_height : number }.

Definition WebGLRenderer_new : WebGLRenderer :=
  {| pixelRatio := 1; size_width := 300; size_height := 150 |}.

(** ** The container element *)

Inductive DomNode :=
| canvas
| other_node (id : nat).

Definition DomNode_eqb (a b : DomNode) : bool :=
  match a, b with
  | canvas, canvas => true
  | other_node i, other_node j => Nat.eqb i j
  | _, _ => false
  end.

(** [offsetWidth] is what layout measures, an input of the player.
    [attr_style] is the text last given to [setAttribute("style", _)];
    [style_height] and [style_display] are the properties assigned through
    [style] since then (setting the attribute replaces the inline style as a
    whole).  The texts are kept as written. *)
Record Element := {
  offsetWidth : Z;
  attr_style : option text;
  style_height : option text;
  style_display : option text;
  childNodes : list DomNode }.

Definition setAttribute_style (t : text) (e : Element) : Element :=
  {| offsetWidth := offsetWidth e; attr_style := Some t;
     style_height := None; style_display := None;
     childNodes := childNodes e |}.

Definition assign_style_height (t : text) (e : Element) : Element :=
  {| offsetWidth := offsetWidth e; attr_style := attr_style e;
     style_height := Some t; style_display := style_display e;
     childNodes := childNodes e |}.

Definition assign_style_display (t : text) (e : Element) : Element :=
  {| offsetWidth := offsetWidth e; attr_style := attr_style e;
     style_height := style_height e; style_display := Some t;
     childNodes := childNodes e |}.

Definition set_childNodes (c : list DomNode) (e : Element) : Element :=
  {| offsetWidth := offsetWidth e; attr_style := attr_style e;
     style_height := style_height e; style_display := style_display e;
     childNodes := c |}.

(** Layout measures the element again (the width of a hidden element is 0). *)
Definition measured (W : Z) (e : Element) : Element :=
  {| offsetWidth := W; attr_style := attr_style e;
     style_height := style_height e; style_display := style_display e;
     childNodes := childNodes e |}.

(** A node is the child of one parent at one place: appending moves it. *)
Definition appendChild (n : DomNode) (e : Element) : Element :=
  set_childNodes
    (filter (fun c => negb (DomNode_eqb c n)) (childNodes e) ++ [n]) e.

(** [while (e.firstChild) e.removeChild(e.firstChild)], one child a turn. *)
Fixpoint remove_children (c : list DomNode) : list DomNode :=
  match c with
  | [] => []
  | _ :: rest => remove_children rest
  end.

(** ** Collaborators of the repository that are not part of this file *)

(** Modelled from the spec: TrackballControls.js is not among the sources.
    The controls are "configured via a fixed parameter set" and the player
    "calls update() every tick and reset() after each successful load"; the
    record holds the parameters as [new TrackballControls] leaves them, and
    the two calls are recorded in the list of calls. *)
Record TrackballControls := {
  rotateSpeed : number;
  zoomSpeed : number;
  panSpeed : number;
  noZoom : bool;
  noPan : bool;
  staticMoving : bool;
  dynamicDampingFactor : number }.

Definition TrackballControls_new : TrackballControls :=
  {| rotateSpeed := 1; zoomSpeed := 1.2; panSpeed := 0.3;
     noZoom := false; noPan := false; staticMoving := false;
     dynamicDampingFactor := 0.2 |}.

(** Modelled from the spec: EventEmitter.js is not among the sources.
    "subscribe(eventName, callback) appends callback to that event's
    subscriber list"; "emit(eventName, ...args) invokes every subscriber
    registered for eventName, in registration order, synchronously".
    A callback is named by a number. *)
Record EventEmitter := { subscribers : list (string * nat) }.

Definition EventEmitter_new : EventEmitter := {| subscribers := [] |}.

Definition subscribe (name : string) (callback : nat) (e : EventEmitter) : EventEmitter :=
  {| subscribers := subscribers e ++ [(name, callback)] |}.

Definition subscribed_to (name : string) (e : EventEmitter) : list nat :=
  map snd (filter (fun s => String.eqb (fst s) name) (subscribers e)).

(** A material set, as MTLLoader hands it over. *)
Record Materials := {
  materials_url : string;
  preloaded : bool }.

Definition preload (m : Materials) : Materials :=
  {| materials_url := materials_url m; preloaded := true |}.

(** The one function the player hands over as a progress or error
    callback. *)
Inductive Logger := console_log.

Inductive LoaderKind := OBJLoader | MTLLoader.

(** [new LoadingManager()] of three.js: no handler is set, and no item has
    been started. *)
Record LoadingManager := {
  manager_onStart : option Logger;
  manager_onLoad : option Logger;
  manager_onProgress : option Logger;
  manager_onError : option Logger;
  isLoading : bool;
  itemsLoaded : number;
  itemsTotal : number }.

Definition LoadingManager_new : LoadingManager :=
  {| manager_onStart := None; manager_onLoad := None;
     manager_onProgress := None; manager_onError := None;
     isLoading := false; itemsLoaded := 0; itemsTotal := 0 |}.

Definition set_onProgress (h : option Logger) (m : LoadingManager) : LoadingManager :=
  {| manager_onStart := manager_onStart m; manager_onLoad := manager_onLoad m;
     manager_onProgress := h; manager_onError := manager_onError m;
     isLoading := isLoading m; itemsLoaded := itemsLoaded m;
     itemsTotal := itemsTotal m |}.

(** The manager once [itemStart] has counted an item. *)
Definition item_started (m : LoadingManager) : LoadingManager :=
  {| manager_onStart := manager_onStart m; manager_onLoad := manager_onLoad m;
     manager_onProgress := manager_onProgress m;
     manager_onError := manager_onError m;
     isLoading := true; itemsLoaded := itemsLoaded m;
     itemsTotal := itemsTotal m + 1 |}.

(** The closures a loader is given as completion callbacks, each with what
    it captured: the callback of [loadObj], and the outer and the inner
    callback of [loadMTL]. *)
Inductive LoadCallback :=
| loadObj_onLoad
| loadMTL_onMaterials (objUrl : string) (manager : LoadingManager)
| loadMTL_onObject.

(** Modelled from the spec: OBJLoader.js and MTLLoader.js are not among the
    sources.  They supply "asynchronous load(url, onSuccess, onProgress,
    onError) entry points": a call of [load] leaves a request in flight, and
    in a later turn the loader calls [onProgress] any number of times, then
    either [onLoad] with what it loaded or [onError].  An argument that is
    not given, or is [undefined], is [None].

    A loader made with a manager, as [new OBJLoader(manager)], tells it of
    the item, as the loaders of three.js do: [itemStart] when the load
    begins, [itemEnd] when it has completed or failed, and [itemError] when
    it has failed.  [request_manager] is that manager; it is [None] for a
    loader made without one, which uses the default manager of three.js, on
    which the player sets no handler. *)
Record Request := {
  request_loader : LoaderKind;
  request_manager : option LoadingManager;
  request_url : string;
  request_materials : option Materials;
  request_onLoad : LoadCallback;
  request_onProgress : option Logger;
  request_onError : option Logger }.

(** ** The player object *)

Record Point := { px : number; py : number }.

(** The fields of [this].  [height] is the one property the constructor
    reads before it has assigned it, so it is a [value]. *)
Record Player3D := {
  _eventEmitter : EventEmitter;
  container : Element;
  fps : number;
  aspectRatio : number;
  width : number;
  height : value;
  center : Point;
  mouse : Point;
  camera : PerspectiveCamera;
  scene : Scene;
  control : TrackballControls;
  renderer : WebGLRenderer }.

Definition set_eventEmitter (v : EventEmitter) (p : Player3D) : Player3D :=
  {| _eventEmitter := v; container := container p; fps := fps p;
     aspectRatio := aspectRatio p; width := width p; height := height p;
     center := center p; mouse := mouse p; camera := camera p;
     scene := scene p; control := control p; renderer := renderer p |}.

Definition set_container (v : Element) (p : Player3D) : Player3D :=
  {| _eventEmitter := _eventEmitter p; container := v; fps := fps p;
     aspectRatio := aspectRatio p; width := width p; height := height p;
     center := center p; mouse := mouse p; camera := camera p;
     scene := scene p; control := control p; renderer := renderer p |}.

Definition set_fps (v : number) (p : Player3D) : Player3D :=
  {| _eventEmitter := _eventEmitter p; container := container p; fps := v;
     aspectRatio := aspectRatio p; width := width p; height := height p;
     center := center p; mouse := mouse p; camera := camera p;
     scene := scene p; control := control p; renderer := renderer p |}.

Definition set_aspectRatio (v : number) (p : Player3D) : Player3D :=
  {| _eventEmitter := _eventEmitter p; container := container p;
     fps := fps p; aspectRatio := v; width := width p; height := height p;
     center := center p; mouse := mouse p; camera := camera p;
     scene := scene p; control := control p; renderer := renderer p |}.

Definition set_width (v : number) (p : Player3D) : Player3D :=
  {| _eventEmitter := _eventEmitter p; container := container p;
     fps := fps p; aspectRatio := aspectRatio p; width := v;
     height := height p; center := center p; mouse := mouse p;
     camera := camera p; scene := scene p; control := control p;
     renderer := renderer p |}.

Definition set_height (v : value) (p : Player3D) : Player3D :=
  {| _eventEmitter := _eventEmitter p; container := container p;
     fps := fps p; aspectRatio := aspectRatio p; width := width p;
     height := v; center := center p; mouse := mouse p; camera := camera p;
     scene := scene p; control := control p; renderer := renderer p |}.

Definition set_center (v : Point) (p : Player3D) : Player3D :=
  {| _eventEmitter := _eventEmitter p; container := container p;
     fps := fps p; aspectRatio := aspectRatio p; width := width p;
     height := height p; center := v; mouse := mouse p; camera := camera p;
     scene := scene p; control := control p; renderer := renderer p |}.

Definition set_mouse (v : Point) (p : Player3D) : Player3D :=
  {| _eventEmitter := _eventEmitter p; container := container p;
     fps := fps p; aspectRatio := aspectRatio p; width := width p;
     height := height p; center := center p; mouse := v; camera := camera p;
     scene := scene p; control := control p; renderer := renderer p |}.

Definition set_camera (v : PerspectiveCamera) (p : Player3D) : Player3D :=
  {| _eventEmitter := _eventEmitter p; container := container p;
     fps := fps p; aspectRatio := aspectRatio p; width := width p;
     height := height p; center := center p; mouse := mouse p; camera := v;
     scene := scene p; control := control p; renderer := renderer p |}.

Definition set_scene (v : Scene) (p : Player3D) : Player3D :=
  {| _eventEmitter := _eventEmitter p; container := container p;
     fps := fps p; aspectRatio := aspectRatio p; width := width p;
     height := height p; center := center p; mouse := mouse p;
     camera := camera p; scene := v; control := control p;
     renderer := renderer p |}.

Definition set_control (v : TrackballControls) (p : Player3D) : Player3D :=
  {| _eventEmitter := _eventEmitter p; container := container p;
     fps := fps p; aspectRatio := aspectRatio p; width := width p;
     height := height p; center := center p; mouse := mouse p;
     camera := camera p; scene := scene p; control := v;
     renderer := renderer p |}.

Definition set_renderer (v : WebGLRenderer) (p : Player3D) : Player3D :=
  {| _eventEmitter := _eventEmitter p; container := container p;
     fps := fps p; aspectRatio := aspectRatio p; width := width p;
     height := height p; center := center p; mouse := mouse p;
     camera := camera p; scene := scene p; control := control p;
     renderer := v |}.

Definition set_aspect (a : number) (c : PerspectiveCamera) : PerspectiveCamera :=
  {| fov := fov c; aspect := a; near := near c; far := far c;
     camera_position := camera_position c;
     camera_children := camera_children c;
     projection_aspect := projection_aspect c; looking_at := looking_at c |}.

Definition set_camera_position_z (z : number) (c : PerspectiveCamera) : PerspectiveCamera :=
  {| fov := fov c; aspect := aspect c; near := near c; far := far c;
     camera_position := vec3 (vx (camera_position c)) (vy (camera_position c)) z;
     camera_children := camera_children c;
     projection_aspect := projection_aspect c; looking_at := looking_at c |}.

Definition PerspectiveCamera_add (l : Light) (c : PerspectiveCamera) : PerspectiveCamera :=
  {| fov := fov c; aspect := aspect c; near := near c; far := far c;
     camera_position := camera_position c;
     camera_children := camera_children c ++ [l];
     projection_aspect := projection_aspect c; looking_at := looking_at c |}.

Definition updateProjectionMatrix (c : PerspectiveCamera) : PerspectiveCamera :=
  {| fov := fov c; aspect := aspect c; near := near c; far := far c;
     camera_position := camera_position c;
     camera_children := camera_children c;
     projection_aspect := aspect c; looking_at := looking_at c |}.

Definition lookAt (target : Vector3) (c : PerspectiveCamera) : PerspectiveCamera :=
  {| fov := fov c; aspect := aspect c; near := near c; far := far c;
     camera_position := camera_position c;
     camera_children := camera_children c;
     projection_aspect := projection_aspect c; looking_at := Some target |}.

Definition setPixelRatio (r : number) (g : WebGLRenderer) : WebGLRenderer :=
  {| pixelRatio := r; size_width := size_width g; size_height := size_height g |}.

Definition setSize (w h : number) (g : WebGLRenderer) : WebGLRenderer :=
  {| pixelRatio := pixelRatio g; size_width := w; size_height := h |}.

(** ** The page around the player *)

(** The two closures the render loop hands to the platform:
    [() => { setTimeout(Player3D._runContext(context), 1000 / context.fps); }]
    for the animation frame, and [Player3D._runContext(context)] for the
    timer. *)
Inductive FrameCallback := schedule_next_run.

Inductive TimerCallback := run_context.

Record Timer := {
  timer_callback : TimerCallback;
  timer_delay : number }.

(** The listeners of the constructor: [Player3D.onDocumentMouseMove(this)]
    and [Player3D.onElementResize(this)]. *)
Inductive EventTarget := document | window.

Inductive Listener := mouse_move_listener | element_resize_listener.

(** A call to a collaborator, as a mock of it would record it. *)
Inductive Call :=
| called_scene_add (n : SceneNode)
| called_camera_add (l : Light)
| called_setPixelRatio (r : number)
| called_setSize (w h : number)
| called_addEventListener (target : EventTarget) (type : string) (l : Listener)
| called_emit (name : string)
| called_OBJLoader_load (url : string) (materials : option Materials)
| called_MTLLoader_load (url : string)
| called_preload (m : Materials)
| called_setMaterials (m : Materials)
| called_control_reset
| called_control_update
| called_lookAt (target : Vector3)
| called_updateProjectionMatrix
| called_render
| called_requestAnimationFrame (f : FrameCallback)
| called_setTimeout (f : TimerCallback) (delay : number).

(** [console] is what [console.log] has printed, a line per call;
    [loads] the requests in flight; [frames] the callbacks waiting for the
    next animation frame; [delivered] the subscriber callbacks the emitter
    has invoked, each with the event it was invoked for. *)
Record World := {
  player : Player3D;
  console : list text;
  listeners : list (EventTarget * string * Listener);
  loads : list Request;
  frames : list FrameCallback;
  timers : list Timer;
  delivered : list (nat * string);
  calls : list Call }.

Definition set_player (v : Player3D) (w : World) : World :=
  {| player := v; console := console w; listeners := listeners w;
     loads := loads w; frames := frames w; timers := timers w;
     delivered := delivered w; calls := calls w |}.

Definition set_console (v : list text) (w : World) : World :=
  {| player := player w; console := v; listeners := listeners w;
     loads := loads w; frames := frames w; timers := timers w;
     delivered := delivered w; calls := calls w |}.

Definition set_listeners (v : list (EventTarget * string * Listener)) (w : World) : World :=
  {| player := player w; console := console w; listeners := v;
     loads := loads w; frames := frames w; timers := timers w;
     delivered := delivered w; calls := calls w |}.

Definition set_loads (v : list Request) (w : World) : World :=
  {| player := player w; console := console w; listeners := listeners w;
     loads := v; frames := frames w; timers := timers w;
     delivered := delivered w; calls := calls w |}.

Definition set_frames (v : list FrameCallback) (w : World) : World :=
  {| player := player w; console := console w; listeners := listeners w;
     loads := loads w; frames := v; timers := timers w;
     delivered := delivered w; calls := calls w |}.

Definition set_timers (v : list Timer) (w : World) : World :=
  {| player := player w; console := console w; listeners := listeners w;
     loads := loads w; frames := frames w; timers := v;
     delivered := delivered w; calls := calls w |}.

Definition set_delivered (v : list (nat * string)) (w : World) : World :=
  {| player := player w; console := console w; listeners := listeners w;
     loads := loads w; frames := frames w; timers := timers w;
     delivered := v; calls := calls w |}.

Definition set_calls (v : list Call) (w : World) : World :=
  {| player := player w; console := console w; listeners := listeners w;
     loads := loads w; frames := frames w; timers := timers w;
     delivered := delivered w; calls := v |}.

(** ** Statements *)

(** A statement changes the page; statements run one after the other. *)
Definition action := World -> World.

Definition andThen (s t : action) : action := fun w => t (s w).

Notation "s ;; t" := (andThen s t) (at level 61, right associativity).

(** An assignment to a property of [this]. *)
Definition assign (f : Player3D -> Player3D) : action :=
  fun w => set_player (f (player w)) w.

(** A statement that depends on what a property of [this] holds now. *)
Definition reading {A : Type} (r : Player3D -> A) (k : A -> action) : action :=
  fun w => k (r (player w)) w.

Definition call (c : Call) : action :=
  fun w => set_calls (calls w ++ [c]) w.

Definition console_log_line (line : text) : action :=
  fun w => set_console (console w ++ [line]) w.

(** [emit]: every subscriber of the event is invoked, in registration order. *)
Definition emit (name : string) : action :=
  call (called_emit name) ;;
  (fun w =>
     set_delivered
       (delivered w
        ++ map (fun cb => (cb, name))
               (subscribed_to name (_eventEmitter (player w)))) w).

Definition scene_add (n : SceneNode) : action :=
  call (called_scene_add n) ;;
  assign (fun this => set_scene (Scene_add n (scene this)) this).

Definition camera_add (l : Light) : action :=
  call (called_camera_add l) ;;
  assign (fun this => set_camera (PerspectiveCamera_add l (camera this)) this).

Definition renderer_setPixelRatio (r : number) : action :=
  call (called_setPixelRatio r) ;;
  assign (fun this => set_renderer (setPixelRatio r (renderer this)) this).

Definition renderer_setSize (w h : number) : action :=
  call (called_setSize w h) ;;
  assign (fun this => set_renderer (setSize w h (renderer this)) this).

Definition addEventListener (target : EventTarget) (type : string) (l : Listener) : action :=
  call (called_addEventListener target type l) ;;
  (fun w => set_listeners (listeners w ++ [(target, type, l)]) w).

Definition requestAnimationFrame (f : FrameCallback) : action :=
  call (called_requestAnimationFrame f) ;;
  (fun w => set_frames (frames w ++ [f]) w).

Definition setTimeout (f : TimerCallback) (delay : number) : action :=
  call (called_setTimeout f delay) ;;
  (fun w =>
     set_timers
       (timers w ++ [{| timer_callback := f; timer_delay := delay |}]) w).

(** A handler of a manager or a callback of a load, called with the
    arguments that make up [line]. *)
Definition run_logger (f : option Logger) (line : text) : action :=
  match f with
  | Some console_log => console_log_line line
  | None => fun w => w
  end.

(** [manager.itemStart(url)]: the item is counted, and [onStart] is called
    if the manager was not loading. *)
Definition itemStart (url : string) (m : LoadingManager) : action :=
  if isLoading m then fun w => w
  else
    run_logger (manager_onStart m)
      [Lit url; Str (Number (itemsLoaded m));
       Str (Number (itemsTotal (item_started m)))].

(** [manager.itemEnd(url)], for the manager as [itemStart] left it: the
    item is counted as loaded, [onProgress] is called, and [onLoad] if no
    item is left. *)
Definition itemEnd (url : string) (m : LoadingManager) : action :=
  run_logger (manager_onProgress m)
    [Lit url; Str (Number (itemsLoaded m + 1)); Str (Number (itemsTotal m))] ;;
  (if strict_equals (itemsLoaded m + 1) (itemsTotal m)
   then run_logger (manager_onLoad m) []
   else fun w => w).

(** [manager.itemError(url)]. *)
Definition itemError (url : string) (m : LoadingManager) : action :=
  run_logger (manager_onError m) [Lit url].

(** [loader.load(url, onLoad, onProgress, onError)] of a loader of [kind]
    made with [manager]. *)
Definition loader_load (kind : LoaderKind) (manager : option LoadingManager)
    (url : string) (materials : option Materials) (onLoad : LoadCallback)
    (onProgress onError : option Logger) : action :=
  call (match kind with
        | OBJLoader => called_OBJLoader_load url materials
        | MTLLoader => called_MTLLoader_load url
        end) ;;
  match manager with
  | Some m => itemStart url m
  | None => fun w => w
  end ;;
  (fun w =>
     set_loads
       (loads w
        ++ [{| request_loader := kind;
               request_manager := option_map item_started manager;
               request_url := url;
               request_materials := materials; request_onLoad := onLoad;
               request_onProgress := onProgress;
               request_onError := onError |}]) w).

(** ** Player3D *)

(** The object before the constructor has assigned anything: no property is
    set ([height] reads as [undefined], a number as NaN) and nothing is
    queued on the page. *)
Definition unassigned : Player3D :=
  {| _eventEmitter := EventEmitter_new;
     container := {| offsetWidth := 0; attr_style := None;
                     style_height := None; style_display := None;
                     childNodes := [] |};
     fps := nan; aspectRatio := nan; width := nan; height := Undefined;
     center := {| px := nan; py := nan |};
     mouse := {| px := nan; py := nan |};
     camera := PerspectiveCamera_new nan nan nan nan;
     scene := Scene_new;
     control := TrackballControls_new;
     renderer := WebGLRenderer_new |}.

Definition new_page : World :=
  {| player := unassigned; console := []; listeners := []; loads := [];
     frames := []; timers := []; delivered := []; calls := [] |}.

(** [_log]: [console.log] of the arguments after the tag. *)
Definition _log (args : text) : action :=
  console_log_line (Lit "[Player3D]" :: args).

(** [new Player3D(domElement)], statement by statement; the second argument
    is [window.devicePixelRatio]. *)
Definition constructor_body (domElement : Element) (devicePixelRatio : number) : action :=
    assign (set_eventEmitter EventEmitter_new) ;;
    assign (set_container domElement) ;;
    assign (set_fps 25) ;;
    assign (set_aspectRatio (16 / 9)) ;;
    assign (fun this => set_width (num_of_Z (offsetWidth (container this))) this) ;;
    reading (fun this => width this / aspectRatio this) (fun height' =>
      assign (fun this =>
        set_container
          (setAttribute_style
             [Lit "display:block; height:"; Str (height this); Lit "px"]
             (container this)) this) ;;
      assign (fun this =>
        set_container
          (assign_style_height [Str (height this); Lit "px"] (container this))
          this) ;;
      assign (set_height (Number height'))) ;;
    reading (fun this => this) (fun this =>
      _log [Lit "Renderizando en contenedor de"; Str (Number (width this));
            Lit "x"; Str (height this)]) ;;
    assign (fun this =>
      set_center {| px := width this / 2;
                    py := ToNumber (height this) / 2 |} this) ;;
    assign (fun this =>
      set_mouse {| px := px (center this); py := py (center this) |} this) ;;
    assign (fun this =>
      set_camera
        (PerspectiveCamera_new 45 (width this / ToNumber (height this)) 1 2500)
        this) ;;
    assign (fun this => set_camera (set_camera_position_z 250 (camera this)) this) ;;
    assign (set_scene Scene_new) ;;
    scene_add (light_node (AmbientLight 0xcccccc 0.4)) ;;
    camera_add (PointLight 0xffffff 0.8) ;;
    assign (set_control
              {| rotateSpeed := 5.0; zoomSpeed := 3.2; panSpeed := 0.8;
                 noZoom := false; noPan := true; staticMoving := false;
                 dynamicDampingFactor := 0.2 |}) ;;
    scene_add camera_node ;;
    assign (set_renderer WebGLRenderer_new) ;;
    renderer_setPixelRatio devicePixelRatio ;;
    reading (fun this => this) (fun this =>
      renderer_setSize (width this) (ToNumber (height this))) ;;
    assign (fun this => set_container (appendChild canvas (container this)) this) ;;
    addEventListener document "mousemove" mouse_move_listener ;;
    addEventListener window "resize" element_resize_listener ;;
    emit "loaded".

Definition constructor (domElement : Element) (devicePixelRatio : number) : World :=
  constructor_body domElement devicePixelRatio new_page.

(** [get events()]: the handle through which callbacks are subscribed. *)
Definition events (w : World) : EventEmitter := _eventEmitter (player w).

Definition events_subscribe (name : string) (callback : nat) : action :=
  assign (fun this =>
    set_eventEmitter (subscribe name callback (_eventEmitter this)) this).

(** The completion callback of [loadObj] (lines 95-104). *)
Definition loadObj_loaded (object : Object3D) : action :=
  let box := setFromObject object in
  let objectSize := getSize box in
  let object :=
    set_position_y object (vy (position object) - vy objectSize / 2) in
  scene_add (model_node object) ;;
  call called_control_reset ;;
  emit "model-loaded".

Definition loadObj (url : string) : action :=
  let manager := LoadingManager_new in
  let manager := set_onProgress (Some console_log) manager in
  loader_load OBJLoader (Some manager) url None loadObj_onLoad
    (manager_onProgress manager) (manager_onError manager).

(** The inner completion callback of [loadMTL] (lines 123-132). *)
Definition loadMTL_object_loaded (object : Object3D) : action :=
  let box := setFromObject object in
  let objectSize := getSize box in
  let object :=
    set_position_y object (vy (position object) - vy objectSize / 2) in
  scene_add (model_node object) ;;
  call called_control_reset ;;
  emit "model-loaded".

(** The outer completion callback of [loadMTL] (lines 119-133); [manager] is
    the one its closure captured. *)
Definition loadMTL_materials_loaded (objUrl : string) (manager : LoadingManager)
    (materials : Materials) : action :=
  call (called_preload materials) ;;
  let materials := preload materials in
  call (called_setMaterials materials) ;;
  loader_load OBJLoader None objUrl (Some materials) loadMTL_onObject
    (manager_onProgress manager) (manager_onError manager).

Definition loadMTL (objUrl mtlUrl : string) : action :=
  let manager := LoadingManager_new in
  let manager := set_onProgress (Some console_log) manager in
  loader_load MTLLoader None mtlUrl None (loadMTL_onMaterials objUrl manager)
    None None.

(** [Player3D.onElementResize(context)]. *)
Definition onElementResize : action :=
  assign (fun context =>
    set_width (num_of_Z (offsetWidth (container context))) context) ;;
  reading (fun context => width context / aspectRatio context) (fun height' =>
    assign (fun context =>
      set_container
        (setAttribute_style
           [Lit "display:block; height:"; Str (height context); Lit "px"]
           (container context)) context) ;;
    assign (fun context =>
      set_container
        (assign_style_height [Str (height context); Lit "px"]
           (container context)) context) ;;
    assign (set_height (Number height'))) ;;
  assign (fun context =>
    set_center {| px := width context / 2;
                  py := ToNumber (height context) / 2 |} context) ;;
  assign (fun context =>
    set_container
      (set_childNodes (remove_children (childNodes (container context)))
         (container context)) context) ;;
  reading (fun context => context) (fun context =>
    renderer_setSize (width context) (ToNumber (height context))) ;;
  assign (fun context =>
    set_container (appendChild canvas (container context)) context) ;;
  assign (fun context =>
    set_camera
      (set_aspect (width context / ToNumber (height context)) (camera context))
      context) ;;
  call called_updateProjectionMatrix ;;
  assign (fun context =>
    set_camera (updateProjectionMatrix (camera context)) context).

(** [Player3D.onDocumentMouseMove(context)], on an event at
    ([clientX], [clientY]). *)
Definition onDocumentMouseMove (clientX clientY : Z) : action :=
  assign (fun context =>
    set_mouse
      {| px := (num_of_Z clientX - px (center context)) / 2;
         py := (num_of_Z clientY - py (center context)) / 2 |} context).

(** [Player3D._runContext(context)]: one run of the render logic. *)
Definition _runContext : action :=
  requestAnimationFrame schedule_next_run ;;
  call called_control_update ;;
  reading (fun context => scene_position (scene context)) (fun target =>
    call (called_lookAt target) ;;
    assign (fun context => set_camera (lookAt target (camera context)) context)) ;;
  call called_render.

Definition start : action := _runContext.

Definition show : action :=
  assign (fun this =>
    set_container (assign_style_display [Lit "inherit"] (container this)) this).

Definition hide : action :=
  assign (fun this =>
    set_container (assign_style_display [Lit "none"] (container this)) this).

(** ** The event loop *)

(** What a loader hands to the completion callback. *)
Inductive Loaded :=
| loaded_object (o : Object3D)
| loaded_materials (m : Materials).

Definition run_callback (f : LoadCallback) (r : Loaded) : action :=
  match f, r with
  | loadObj_onLoad, loaded_object o => loadObj_loaded o
  | loadMTL_onMaterials objUrl manager, loaded_materials m =>
      loadMTL_materials_loaded objUrl manager m
  | loadMTL_onObject, loaded_object o => loadMTL_object_loaded o
  | _, _ => fun w => w
  end.

(** A geometry loader loads an object, a material loader a material set. *)
Definition loads_that (k : LoaderKind) (r : Loaded) : bool :=
  match k, r with
  | OBJLoader, loaded_object _ => true
  | MTLLoader, loaded_materials _ => true
  | _, _ => false
  end.

(** What a loader tells its manager when a load has ended, and when it has
    failed. *)
Definition item_ended (q : Request) : action :=
  match request_manager q with
  | Some m => itemEnd (request_url q) m
  | None => fun w => w
  end.

Definition item_failed (q : Request) : action :=
  match request_manager q with
  | Some m => itemError (request_url q) m
  | None => fun w => w
  end.

Definition remove_nth {A : Type} (i : nat) (l : list A) : list A :=
  firstn i l ++ skipn (S i) l.

Definition run_listener (l : Listener) (clientX clientY : Z) : action :=
  match l with
  | mouse_move_listener => onDocumentMouseMove clientX clientY
  | element_resize_listener => onElementResize
  end.

(** The listeners registered on [target] for [type] run in registration
    order. *)
Fixpoint dispatch (target : EventTarget) (type : string)
    (clientX clientY : Z) (ls : list (EventTarget * string * Listener)) : action :=
  match ls with
  | [] => fun w => w
  | (t, ty, l) :: rest =>
      (if (match t, target with
           | document, document | window, window => true
           | _, _ => false
           end) && String.eqb ty type
       then run_listener l clientX clientY
       else fun w => w) ;;
      dispatch target type clientX clientY rest
  end.

Definition run_frame_callback (f : FrameCallback) : action :=
  match f with
  | schedule_next_run =>
      reading (fun context => 1000 / fps context) (fun delay =>
        setTimeout run_context delay)
  end.

Definition run_timer_callback (f : TimerCallback) : action :=
  match f with
  | run_context => _runContext
  end.

(** What can happen in a turn of the event loop: the page calls a method of
    the player, or the browser runs a callback it was given. *)
Inductive Event :=
| calls_start
| calls_show
| calls_hide
| calls_loadObj (url : string)
| calls_loadMTL (objUrl mtlUrl : string)
| calls_subscribe (name : string) (callback : nat)
| window_resized (measuredWidth : Z)
| mouse_moved (clientX clientY : Z)
| animation_frame
| timer_expired (i : nat)
| load_progressed (i : nat) (progress : string)
| load_failed (i : nat) (error : string)
| load_completed (i : nat) (r : Loaded).

Definition step (e : Event) : action :=
  match e with
  | calls_start => start
  | calls_show => show
  | calls_hide => hide
  | calls_loadObj url => loadObj url
  | calls_loadMTL objUrl mtlUrl => loadMTL objUrl mtlUrl
  | calls_subscribe name callback => events_subscribe name callback
  | window_resized W =>
      assign (fun this => set_container (measured W (container this)) this) ;;
      (fun w => dispatch window "resize" 0 0 (listeners w) w)
  | mouse_moved clientX clientY =>
      fun w => dispatch document "mousemove" clientX clientY (listeners w) w
  | animation_frame =>
      fun w =>
        fold_left (fun w f => run_frame_callback f w) (frames w)
          (set_frames [] w)
  | timer_expired i =>
      fun w =>
        match nth_error (timers w) i with
        | Some t =>
            run_timer_callback (timer_callback t)
              (set_timers (remove_nth i (timers w)) w)
        | None => w
        end
  | load_progressed i progress =>
      fun w =>
        match nth_error (loads w) i with
        | Some q => run_logger (request_onProgress q) [Lit progress] w
        | None => w
        end
  | load_failed i error =>
      fun w =>
        match nth_error (loads w) i with
        | Some q =>
            (run_logger (request_onError q) [Lit error] ;;
             item_ended q ;;
             item_failed q)
              (set_loads (remove_nth i (loads w)) w)
        | None => w
        end
  | load_completed i r =>
      fun w =>
        match nth_error (loads w) i with
        | Some q =>
            if loads_that (request_loader q) r
            then (run_callback (request_onLoad q) r ;; item_ended q)
                   (set_loads (remove_nth i (loads w)) w)
            else w
        | None => w
        end
  end.

Fixpoint run (es : list Event) : action :=
  match es with
  | [] => fun w => w
  | e :: rest => step e ;; run rest
  end.

(** The pages a player can be in: the one its constructor leaves, and those
    the event loop reaches from it. *)
Inductive reachable : World -> Prop :=
| reachable_new domElement devicePixelRatio :
    reachable (constructor domElement devicePixelRatio)
| reachable_step e w :
    reachable w -> reachable (step e w).

(** ** What the properties are stated with *)

(** The runs of the render logic that are waiting for their turn: each
    started loop is, between two runs, either a callback waiting for the
    animation frame or a timer. *)
Definition pending_runs (w : World) : nat :=
  List.length (frames w) + List.length (timers w).

Definition is_start (e : Event) : bool :=
  match e with
  | calls_start => true
  | _ => false
  end.

Definition starts (es : list Event) : nat := List.length (filter is_start es).

(** The events emitted, in order, among the calls made. *)
Definition emissions (cs : list Call) : list string :=
  flat_map (fun c => match c with
                     | called_emit name => [name]
                     | _ => []
                     end) cs.

Definition times_emitted (name : string) (w : World) : nat :=
  List.length (filter (String.eqb name) (emissions (calls w))).

Definition constructor_listeners : list (EventTarget * string * Listener) :=
  [(document, "mousemove"%string, mouse_move_listener);
   (window, "resize"%string, element_resize_listener)].

(** The request [loadObj] leaves in flight, and the two of [loadMTL]. *)
Definition loadObj_request (url : string) : Request :=
  {| request_loader := OBJLoader;
     request_manager :=
       Some (item_started
               (set_onProgress (Some console_log) LoadingManager_new));
     request_url := url;
     request_materials := None; request_onLoad := loadObj_onLoad;
     request_onProgress := Some console_log; request_onError := None |}.

Definition loadMTL_materials_request (objUrl mtlUrl : string) : Request :=
  {| request_loader := MTLLoader; request_manager := None;
     request_url := mtlUrl;
     request_materials := None;
     request_onLoad :=
       loadMTL_onMaterials objUrl
         (set_onProgress (Some console_log) LoadingManager_new);
     request_onProgress := None; request_onError := None |}.

Definition loadMTL_object_request (objUrl : string) (m : Materials) : Request :=
  {| request_loader := OBJLoader; request_manager := None;
     request_url := objUrl;
     request_materials := Some m; request_onLoad := loadMTL_onObject;
     request_onProgress := Some console_log; request_onError := None |}.

Definition made_by_player (q : Request) : Prop :=
  (exists url, q = loadObj_request url)
  \/ (exists objUrl mtlUrl, q = loadMTL_materials_request objUrl mtlUrl)
  \/ (exists objUrl m, q = loadMTL_object_request objUrl m).

(** The line the progress handler of the manager of [loadObj] prints when
    its one item has ended. *)
Definition item_end_line (url : string) : text :=
  [Lit url; Str (Number 1); Str (Number 1)].

(** The object the completion callbacks add to the scene: the loaded one,
    lowered by half the height of its bounding box. *)
Definition lowered (o : Object3D) : Object3D :=
  set_position_y o
    (vy (position o) - vy (getSize (setFromObject o)) / 2).

(** The page with the [display] of the container forgotten. *)
Definition without_display : action :=
  assign (fun this =>
    set_container
      {| offsetWidth := offsetWidth (container this);
         attr_style := attr_style (container this);
         style_height := style_height (container this);
         style_display := None;
         childNodes := childNodes (container this) |} this).

(** The aspect ratio the camera gets for a container that measures [W]. *)
Definition aspect_for_width (W : Z) : number :=
  let width := num_of_Z W in
  let height := width / (16 / 9) in
  width / height.

(** The widest container considered, 2^47 - 1 pixels: [offsetWidth] is a
    [long] of the DOM, which holds at most 2^31 - 1. *)
Definition widest : Z := 140737488355327.

(** The double 16 / 9: its mantissa, which is (2^56 - 4) / 9, and the
    number as the specification of the operations has it. *)
Definition sixteen_ninths_mantissa : Z := 8006399337547548.

Definition sixteen_ninths_spec : spec_float :=
  S754_finite false (Z.to_pos sixteen_ninths_mantissa) (-52).

(** What holds of the page whenever the event loop is between two turns. *)
Record invariant (w : World) : Prop := {
  inv_listeners : listeners w = constructor_listeners;
  inv_fps : fps (player w) = 25;
  inv_aspectRatio : aspectRatio (player w) = 16 / 9;
  inv_width :
    width (player w) = num_of_Z (offsetWidth (container (player w)));
  inv_height :
    height (player w) = Number (width (player w) / aspectRatio (player w));
  inv_aspect :
    aspect (camera (player w))
    = width (player w) / ToNumber (height (player w));
  inv_scene_position : scene_position (scene (player w)) = origin;
  inv_timers : Forall (fun t => timer_delay t = 40) (timers w);
  inv_loads : Forall made_by_player (loads w);
  inv_delivered :
    Forall (fun d => snd d = "model-loaded"%string) (delivered w);
  inv_emitted : times_emitted "loaded" w = 1%nat }.

(** Sample inputs: a container laid out 1600 pixels wide with one child, and
    a model whose vertices lie between y = 10 and y = 20. *)
Definition sample_container : Element :=
  {| offsetWidth := 1600; attr_style := None; style_height := None;
     style_display := None; childNodes := [other_node 0] |}.

Definition sample_object : Object3D :=
  {| position := origin;
     geometry := [vec3 0 10 0; vec3 4 20 2; vec3 (-4) 15 1] |}.

Definition sample_materials : Materials :=
  {| materials_url := "model.mtl"; preloaded := false |}.

Definition sample_page : World := constructor sample_container 1.

(** ** Further observations *)

Definition count_calls (p : Call -> bool) (w : World) : nat :=
  List.length (filter p (calls w)).

Definition is_render (c : Call) : bool :=
  match c with called_render => true | _ => false end.

Definition is_requestAnimationFrame (c : Call) : bool :=
  match c with called_requestAnimationFrame _ => true | _ => false end.

Definition is_control_update (c : Call) : bool :=
  match c with called_control_update => true | _ => false end.

Definition is_control_reset (c : Call) : bool :=
  match c with called_control_reset => true | _ => false end.

Definition is_lookAt (c : Call) : bool :=
  match c with called_lookAt _ => true | _ => false end.

Definition is_setTimeout (c : Call) : bool :=
  match c with called_setTimeout _ _ => true | _ => false end.

(** A call of [lookAt] has the origin for its target. *)
Definition looks_at_origin (c : Call) : Prop :=
  match c with
  | called_lookAt target => target = origin
  | _ => True
  end.

(** The line the constructor prints for a container. *)
Definition startup_line (domElement : Element) : text :=
  let width := num_of_Z (offsetWidth domElement) in
  [Lit "[Player3D]"; Lit "Renderizando en contenedor de";
   Str (Number width); Lit "x"; Str (Number (width / (16 / 9)))].

(** The lines a load prints: the progress the loader reports, through the
    progress callback of the request, and the end of the item, through the
    progress handler of the manager. *)
Definition loader_line (line : text) : Prop :=
  (exists progress, line = [Lit progress])
  \/ (exists url, line = item_end_line url).

(** The parameters the constructor gives the controls. *)
Definition configured_control : TrackballControls :=
  {| rotateSpeed := 5.0; zoomSpeed := 3.2; panSpeed := 0.8;
     noZoom := false; noPan := true; staticMoving := false;
     dynamicDampingFactor := 0.2 |}.

(** The children the constructor gives the scene. *)
Definition constructor_scene : list SceneNode :=
  [light_node (AmbientLight 0xcccccc 0.4); camera_node].

(** The page with the pointer position forgotten. *)
Definition forget_mouse : action :=
  assign (set_mouse {| px := 0; py := 0 |}).

Definition is_mouse_moved (e : Event) : bool :=
  match e with
  | mouse_moved _ _ => true
  | _ => false
  end.

(** The player with the style of its container forgotten. *)
Definition without_style (p : Player3D) : Player3D :=
  set_container
    {| offsetWidth := offsetWidth (container p);
       attr_style := None; style_height := None; style_display := None;
       childNodes := childNodes (container p) |} p.

(** The models an event adds to the scene: the object of a completed
    geometry load that was in flight, lowered. *)
Definition models_added (e : Event) (w : World) : list Object3D :=
  match e with
  | load_completed i (loaded_object o) =>
      match nth_error (loads w) i with
      | Some q =>
          match request_loader q with
          | OBJLoader => [lowered o]
          | MTLLoader => []
          end
      | None => []
      end
  | _ => []
  end.

(** The models a course of events adds, in the order of the events. *)
Fixpoint loaded_models (es : list Event) (w : World) : list Object3D :=
  match es with
  | [] => []
  | e :: rest => models_added e w ++ loaded_models rest (step e w)
  end.

(** The player after a resize at which the container measures [W], as the
    resize handler leaves it. *)
Definition resized (W : Z) (p : Player3D) : Player3D :=
  let width' := num_of_Z W in
  let height' := width' / aspectRatio p in
  {| _eventEmitter := _eventEmitter p;
     container :=
       {| offsetWidth := W;
          attr_style :=
            Some [Lit "display:block; height:"; Str (height p); Lit "px"];
          style_height := Some [Str (height p); Lit "px"];
          style_display := None;
          childNodes := [canvas] |};
     fps := fps p;
     aspectRatio := aspectRatio p;
     width := width';
     height := Number height';
     center := {| px := width' / 2; py := height' / 2 |};
     mouse := mouse p;
     camera :=
       updateProjectionMatrix (set_aspect (width' / height') (camera p));
     scene := scene p;
     control := control p;
     renderer := setSize width' height' (renderer p) |}.

(** A sample input: an object that has no vertex. *)
Definition sample_empty_object : Object3D :=
  {| position := vec3 1 2 3; geometry := [] |}.

(** What else holds of the page of a player made for [domElement] under
    [devicePixelRatio], whenever the event loop is between two turns. *)
Record kept (domElement : Element) (devicePixelRatio : number) (w : World) : Prop := {
  kept_control : control (player w) = configured_control;
  kept_fov : fov (camera (player w)) = 45;
  kept_near : near (camera (player w)) = 1;
  kept_far : far (camera (player w)) = 2500;
  kept_camera_children :
    camera_children (camera (player w)) = [PointLight 0xffffff 0.8];
  kept_pixelRatio : pixelRatio (renderer (player w)) = devicePixelRatio;
  kept_size_width : size_width (renderer (player w)) = width (player w);
  kept_size_height :
    size_height (renderer (player w)) = ToNumber (height (player w));
  kept_center :
    center (player w)
    = {| px := width (player w) / 2;
         py := ToNumber (height (player w)) / 2 |};
  kept_projection :
    projection_aspect (camera (player w)) = aspect (camera (player w));
  kept_canvas : In canvas (childNodes (container (player w)));
  kept_scene :
    exists models,
      scene_children (scene (player w))
      = constructor_scene ++ map model_node models
      /\ List.length models = times_emitted "model-loaded" w
      /\ List.length models = count_calls is_control_reset w;
  kept_console :
    exists lines,
      console w = startup_line domElement :: lines
      /\ Forall loader_line lines;
  kept_render :
    count_calls is_render w = count_calls is_requestAnimationFrame w;
  kept_update :
    count_calls is_control_update w = count_calls is_requestAnimationFrame w;
  kept_lookAt :
    count_calls is_lookAt w = count_calls is_requestAnimationFrame w;
  kept_scheduled :
    count_calls is_requestAnimationFrame w
    = (count_calls is_setTimeout w + List.length (frames w))%nat;
  kept_targets : Forall looks_at_origin (calls w) }.

(** * Properties *)

Local Close Scope float_scope.

(** ** The invariant *)

Lemma invariant_constructor domElement devicePixelRatio :
  invariant (constructor domElement devicePixelRatio).
Proof.
  split; try reflexivity; cbn; constructor.
Qed.

Lemma dispatch_resize w :
  listeners w = constructor_listeners ->
  dispatch window "resize" 0 0 (listeners w) w = onElementResize w.
Proof.
  intros ->. reflexivity.
Qed.

Lemma dispatch_mousemove clientX clientY w :
  listeners w = constructor_listeners ->
  dispatch document "mousemove" clientX clientY (listeners w) w
  = onDocumentMouseMove clientX clientY w.
Proof.
  intros ->. reflexivity.
Qed.

Lemma step_window_resized W w :
  listeners w = constructor_listeners ->
  step (window_resized W) w
  = onElementResize
      (assign (fun this => set_container (measured W (container this)) this) w).
Proof.
  intros H. unfold step, andThen. now rewrite <- dispatch_resize.
Qed.

Lemma emissions_app cs cs' :
  emissions (cs ++ cs') = emissions cs ++ emissions cs'.
Proof.
  unfold emissions. now rewrite flat_map_app.
Qed.

Lemma emissions_setTimeout (fs : list FrameCallback) delay :
  emissions (map (fun _ => called_setTimeout run_context delay) fs) = [].
Proof.
  induction fs; cbn; auto.
Qed.

Lemma times_emitted_calls name w w' cs :
  calls w' = calls w ++ cs ->
  filter (String.eqb name) (emissions cs) = [] ->
  times_emitted name w' = times_emitted name w.
Proof.
  unfold times_emitted. intros -> H.
  now rewrite emissions_app, filter_app, H, app_nil_r.
Qed.

Lemma run_frame_callbacks fs :
  forall w,
    let w' := fold_left (fun w f => run_frame_callback f w) fs w in
    player w' = player w /\ console w' = console w
    /\ listeners w' = listeners w /\ loads w' = loads w
    /\ frames w' = frames w /\ delivered w' = delivered w
    /\ timers w'
       = timers w
         ++ map (fun _ => {| timer_callback := run_context;
                             timer_delay := (1000 / fps (player w))%float |}) fs
    /\ calls w'
       = calls w
         ++ map (fun _ => called_setTimeout run_context
                            (1000 / fps (player w))%float) fs.
Proof.
  induction fs as [|f fs IH]; intros w; cbn.
  - now rewrite !app_nil_r.
  - destruct f.
    destruct (IH (run_frame_callback schedule_next_run w))
      as (Hp & Hc & Hl & Hq & Hf & Hd & Ht & Hs).
    cbn in *. rewrite Hp, Hc, Hl, Hq, Hf, Hd, Ht, Hs.
    now rewrite <- !app_assoc.
Qed.

Lemma Forall_remove_nth {A : Type} (P : A -> Prop) i :
  forall l, Forall P l -> Forall P (remove_nth i l).
Proof.
  unfold remove_nth.
  induction i as [|i IH]; intros l H; destruct H; cbn; auto.
Qed.

Lemma length_remove_nth {A : Type} i :
  forall (l : list A) x,
    nth_error l i = Some x -> S (List.length (remove_nth i l)) = List.length l.
Proof.
  unfold remove_nth.
  induction i as [|i IH]; intros [|y l] x H; cbn in *; try discriminate.
  - reflexivity.
  - f_equal. exact (IH l x H).
Qed.

Lemma nth_error_Forall {A : Type} (P : A -> Prop) l i x :
  Forall P l -> nth_error l i = Some x -> P x.
Proof.
  intros H E. rewrite Forall_forall in H. apply H.
  now apply nth_error_In with i.
Qed.

(** The calls of a step are appended to those already made. *)
Ltac appended :=
  cbn; repeat rewrite <- app_assoc;
  first [ reflexivity | symmetry; apply app_nil_r ].

(** The emissions of ["loaded"] are those there were, when the calls that
    were added hold none. *)
Ltac no_loaded_emitted I :=
  rewrite <- (inv_emitted _ I);
  eapply times_emitted_calls; [ appended | reflexivity ].

Ltac keeps I :=
  destruct I; cbn; auto.

Lemma invariant_runContext w : invariant w -> invariant (_runContext w).
Proof.
  intros I. split; [ keeps I .. | no_loaded_emitted I ].
Qed.

Lemma invariant_set_timers ts w :
  Forall (fun t => timer_delay t = 40%float) ts ->
  invariant w -> invariant (set_timers ts w).
Proof.
  intros H I. split; [ keeps I .. | no_loaded_emitted I ].
Qed.

Lemma invariant_set_loads qs w :
  Forall made_by_player qs -> invariant w -> invariant (set_loads qs w).
Proof.
  intros H I. split; [ keeps I .. | no_loaded_emitted I ].
Qed.

Lemma invariant_console_log_line line w :
  invariant w -> invariant (console_log_line line w).
Proof.
  intros I. split; [ keeps I .. | no_loaded_emitted I ].
Qed.

(** A handler prints and does nothing else, and so it is with what a
    loader tells its manager. *)
Lemma run_logger_prints f line w :
  player (run_logger f line w) = player w
  /\ listeners (run_logger f line w) = listeners w
  /\ loads (run_logger f line w) = loads w
  /\ frames (run_logger f line w) = frames w
  /\ timers (run_logger f line w) = timers w
  /\ delivered (run_logger f line w) = delivered w
  /\ calls (run_logger f line w) = calls w.
Proof.
  destruct f as [[]|]; repeat split.
Qed.

Lemma item_ended_prints q w :
  player (item_ended q w) = player w
  /\ listeners (item_ended q w) = listeners w
  /\ loads (item_ended q w) = loads w
  /\ frames (item_ended q w) = frames w
  /\ timers (item_ended q w) = timers w
  /\ delivered (item_ended q w) = delivered w
  /\ calls (item_ended q w) = calls w.
Proof.
  unfold item_ended. destruct (request_manager q) as [m|]; [|repeat split].
  unfold itemEnd, andThen.
  destruct (strict_equals _ _);
    destruct (manager_onProgress m) as [[]|];
    try destruct (manager_onLoad m) as [[]|]; repeat split.
Qed.

Lemma item_failed_prints q w :
  player (item_failed q w) = player w
  /\ listeners (item_failed q w) = listeners w
  /\ loads (item_failed q w) = loads w
  /\ frames (item_failed q w) = frames w
  /\ timers (item_failed q w) = timers w
  /\ delivered (item_failed q w) = delivered w
  /\ calls (item_failed q w) = calls w.
Proof.
  unfold item_failed, itemError.
  destruct (request_manager q) as [m|]; [|repeat split].
  apply run_logger_prints.
Qed.

Lemma invariant_run_logger f line w :
  invariant w -> invariant (run_logger f line w).
Proof.
  intros I. destruct f as [[]|]; cbn [run_logger]; auto.
  now apply invariant_console_log_line.
Qed.

Lemma invariant_item_ended q w :
  invariant w -> invariant (item_ended q w).
Proof.
  intros I. unfold item_ended.
  destruct (request_manager q) as [m|]; auto.
  unfold itemEnd, andThen.
  destruct (strict_equals _ _); auto using invariant_run_logger.
Qed.

Lemma invariant_item_failed q w :
  invariant w -> invariant (item_failed q w).
Proof.
  intros I. unfold item_failed, itemError.
  destruct (request_manager q) as [m|]; auto using invariant_run_logger.
Qed.

Lemma invariant_loaded o w :
  invariant w -> invariant (loadObj_loaded o w).
Proof.
  intros I. split; [ keeps I .. | no_loaded_emitted I ].
  apply Forall_app. split; auto.
  apply Forall_forall. intros [cb name] H.
  apply in_map_iff in H. destruct H as (x & [= _ <-] & _). reflexivity.
Qed.

Lemma invariant_step e w : invariant w -> invariant (step e w).
Proof.
  intros I. destruct e.
  - now apply invariant_runContext.
  - split; [ keeps I .. | no_loaded_emitted I ].
  - split; [ keeps I .. | no_loaded_emitted I ].
  - split; [ keeps I .. | no_loaded_emitted I ].
    apply Forall_app. split; auto. constructor; auto.
    left. now exists url.
  - split; [ keeps I .. | no_loaded_emitted I ].
    apply Forall_app. split; auto. constructor; auto.
    right. left. now exists objUrl, mtlUrl.
  - split; [ keeps I .. | no_loaded_emitted I ].
  - rewrite step_window_resized by apply I.
    split; [ keeps I .. | no_loaded_emitted I ].
  - unfold step. rewrite dispatch_mousemove by apply I.
    split; [ keeps I .. | no_loaded_emitted I ].
  - unfold step.
    destruct (run_frame_callbacks (frames w) (set_frames [] w))
      as (Hp & Hc & Hl & Hq & Hf & Hd & Ht & Hs).
    cbn in Hp, Hc, Hl, Hq, Hf, Hd, Ht, Hs.
    destruct I. split; rewrite ?Hp, ?Hl, ?Hq, ?Hd, ?Ht; auto.
    + apply Forall_app. split; auto.
      apply Forall_forall. intros t H. apply in_map_iff in H.
      destruct H as (x & <- & _). cbn. now rewrite inv_fps0.
    + rewrite <- inv_emitted0. eapply times_emitted_calls; [ exact Hs | ].
      now rewrite emissions_setTimeout.
  - unfold step. destruct (nth_error (timers w) i) as [[[] delay]|] eqn:E; auto.
    cbn [timer_callback run_timer_callback].
    apply invariant_runContext, invariant_set_timers; auto.
    apply Forall_remove_nth, I.
  - unfold step. destruct (nth_error (loads w) i) as [q|]; auto.
    destruct (request_onProgress q) as [[]|]; cbn [run_logger]; auto.
    now apply invariant_console_log_line.
  - unfold step. destruct (nth_error (loads w) i) as [q|]; auto.
    assert (invariant (set_loads (remove_nth i (loads w)) w)) as I'.
    { apply invariant_set_loads; auto. apply Forall_remove_nth, I. }
    unfold andThen.
    now apply invariant_item_failed, invariant_item_ended,
      invariant_run_logger.
  - unfold step. destruct (nth_error (loads w) i) as [q|] eqn:E; auto.
    destruct (loads_that (request_loader q) r); auto.
    assert (invariant (set_loads (remove_nth i (loads w)) w)) as I'.
    { apply invariant_set_loads; auto. apply Forall_remove_nth, I. }
    unfold andThen. apply invariant_item_ended.
    destruct (nth_error_Forall _ _ _ _ (inv_loads _ I) E)
      as [(url & ->)|[(objUrl & mtlUrl & ->)|(objUrl & m & ->)]];
      destruct r as [o|m']; cbn [run_callback request_onLoad loadObj_request
        loadMTL_materials_request loadMTL_object_request]; auto.
    + now apply invariant_loaded.
    + split; [ keeps I' .. | no_loaded_emitted I' ].
      apply Forall_app. split; auto. constructor; auto.
      right. right. now exists objUrl, (preload m').
    + now apply invariant_loaded.
Qed.

Lemma reachable_invariant w : reachable w -> invariant w.
Proof.
  induction 1.
  - apply invariant_constructor.
  - now apply invariant_step.
Qed.

Lemma reachable_run es : forall w, reachable w -> reachable (run es w).
Proof.
  induction es as [|e es IH]; intros w H; cbn; auto.
  apply IH. now apply reachable_step.
Qed.

(** ** The render loop *)

Lemma pending_runs_step e w :
  invariant w ->
  pending_runs (step e w) = pending_runs w + (if is_start e then 1 else 0).
Proof.
  intros I. unfold pending_runs. destruct e.
  - cbn. rewrite length_app. cbn. lia.
  - cbn. lia.
  - cbn. lia.
  - cbn. lia.
  - cbn. lia.
  - cbn. lia.
  - rewrite step_window_resized by apply I. cbn. lia.
  - unfold step. rewrite dispatch_mousemove by apply I. cbn. lia.
  - unfold step.
    destruct (run_frame_callbacks (frames w) (set_frames [] w))
      as (_ & _ & _ & _ & Hf & _ & Ht & _).
    cbn in Hf, Ht. rewrite Hf, Ht, length_app, length_map. cbn. lia.
  - unfold step. destruct (nth_error (timers w) i) as [[[] delay]|] eqn:E.
    + apply length_remove_nth in E. cbn. rewrite length_app. cbn. lia.
    + cbn. lia.
  - unfold step. destruct (nth_error (loads w) i) as [q|]; [|cbn; lia].
    destruct (request_onProgress q) as [[]|]; cbn; lia.
  - unfold step. destruct (nth_error (loads w) i) as [q|]; [|cbn; lia].
    unfold andThen.
    destruct (item_failed_prints q
                (item_ended q
                   (run_logger (request_onError q) [Lit error]
                      (set_loads (remove_nth i (loads w)) w))))
      as (_ & _ & _ & -> & -> & _).
    destruct (item_ended_prints q
                (run_logger (request_onError q) [Lit error]
                   (set_loads (remove_nth i (loads w)) w)))
      as (_ & _ & _ & -> & -> & _).
    destruct (request_onError q) as [[]|]; cbn; lia.
  - unfold step. destruct (nth_error (loads w) i) as [q|]; [|cbn; lia].
    destruct (loads_that (request_loader q) r); [|cbn; lia].
    unfold andThen.
    destruct (item_ended_prints q
                (run_callback (request_onLoad q) r
                   (set_loads (remove_nth i (loads w)) w)))
      as (_ & _ & _ & -> & -> & _).
    destruct (request_onLoad q), r; cbn; lia.
Qed.

Lemma pending_runs_run es :
  forall w,
    reachable w -> pending_runs (run es w) = pending_runs w + starts es.
Proof.
  induction es as [|e es IH]; intros w H; cbn.
  - unfold starts. cbn. lia.
  - unfold andThen. rewrite IH by now apply reachable_step.
    rewrite pending_runs_step by now apply reachable_invariant.
    unfold starts. cbn. destruct (is_start e); cbn; lia.
Qed.

(** C5, as the code has it.  [start] keeps no record of having been called:
    each call begins a render loop of its own, so that after any course of
    events there are as many loops rescheduling themselves as [start] was
    called, two after two calls. *)
Theorem one_render_loop_per_start domElement devicePixelRatio es :
  pending_runs (run es (constructor domElement devicePixelRatio)) = starts es.
Proof.
  rewrite pending_runs_run by apply reachable_new. reflexivity.
Qed.

(** C5, refuted as stated: a second call of [start] leaves two runs of the
    render logic pending, and both are still there, each having run again,
    after the animation frame and the two timers have fired. *)
Lemma second_start_begins_second_loop :
  pending_runs (run [calls_start] sample_page) = 1%nat
  /\ pending_runs (run [calls_start; calls_start] sample_page) = 2%nat
  /\ pending_runs
       (run [calls_start; calls_start; animation_frame;
             timer_expired 0; timer_expired 0] sample_page) = 2%nat
  /\ List.length
       (filter (fun c => match c with called_render => true | _ => false end)
          (calls (run [calls_start; calls_start; animation_frame;
                       timer_expired 0; timer_expired 0] sample_page)))
     = 4%nat.
Proof.
  split; [|split; [|split]]; vm_compute; reflexivity.
Qed.

(** C6.  Every run of the render logic, the one [start] makes and the one
    every timer makes when it expires, asks for the next animation frame,
    then updates the controls, then points the camera at the position of
    the scene, which is the origin, then renders once.  The callback of the
    animation frame sets a timer of 1000 / fps = 40 milliseconds for the
    next run, and every timer of the page is such a timer.  No event, so no
    method of the player, takes a pending run away: a loop that was started
    reschedules itself whatever happens. *)
Theorem render_loop_tick w es :
  reachable w ->
  (calls (_runContext w)
   = calls w ++ [called_requestAnimationFrame schedule_next_run;
                 called_control_update; called_lookAt origin; called_render]
   /\ frames (_runContext w) = frames w ++ [schedule_next_run]
   /\ timers (_runContext w) = timers w
   /\ looking_at (camera (player (_runContext w))) = Some origin)
  /\ (calls (run_frame_callback schedule_next_run w)
      = calls w ++ [called_setTimeout run_context 40%float]
      /\ timers (run_frame_callback schedule_next_run w)
         = timers w
           ++ [{| timer_callback := run_context; timer_delay := 40%float |}]
      /\ (1000 / fps (player w))%float = 40%float)
  /\ (step calls_start w = _runContext w
      /\ pending_runs (step calls_start w) = pending_runs w + 1)
  /\ (forall i t,
        nth_error (timers w) i = Some t ->
        timer_callback t = run_context
        /\ timer_delay t = 40%float
        /\ step (timer_expired i) w
           = _runContext (set_timers (remove_nth i (timers w)) w)
        /\ calls (step (timer_expired i) w)
           = calls w ++ [called_requestAnimationFrame schedule_next_run;
                         called_control_update; called_lookAt origin;
                         called_render]
        /\ pending_runs (step (timer_expired i) w) = pending_runs w)
  /\ (frames (step animation_frame w) = []
      /\ timers (step animation_frame w)
         = timers w
           ++ map (fun _ => {| timer_callback := run_context;
                               timer_delay := 40%float |}) (frames w)
      /\ pending_runs (step animation_frame w) = pending_runs w)
  /\ pending_runs w <= pending_runs (run es w).
Proof.
  intros R. pose proof (reachable_invariant w R) as I.
  pose proof (inv_fps _ I) as Hfps.
  pose proof (inv_scene_position _ I) as Hpos.
  assert (calls (_runContext w)
          = calls w ++ [called_requestAnimationFrame schedule_next_run;
                        called_control_update; called_lookAt origin;
                        called_render]) as C
    by (cbn; rewrite Hpos, <- !app_assoc; reflexivity).
  split; [|split; [|split; [|split; [|split]]]].
  - split; [exact C|]. split; [reflexivity|]. split; [reflexivity|].
    cbn. now rewrite Hpos.
  - split; [|split]; cbn; now rewrite Hfps.
  - split; [reflexivity|].
    rewrite pending_runs_step by exact I. reflexivity.
  - intros i t E.
    pose proof (nth_error_Forall _ _ _ _ (inv_timers _ I) E) as Ht.
    assert (step (timer_expired i) w
            = _runContext (set_timers (remove_nth i (timers w)) w)) as S
      by (unfold step; rewrite E; now destruct t as [[] delay]).
    split; [now destruct t as [[] delay]|]. split; [exact Ht|].
    split; [exact S|]. split.
    + rewrite S. cbn. rewrite Hpos, <- !app_assoc. reflexivity.
    + rewrite pending_runs_step by exact I. cbn. lia.
  - unfold step.
    destruct (run_frame_callbacks (frames w) (set_frames [] w))
      as (_ & _ & _ & _ & Hf & _ & Ht & _).
    cbn in Hf, Ht. rewrite Hfps in Ht.
    split; [exact Hf|]. split; [exact Ht|].
    unfold pending_runs. rewrite Hf, Ht, length_app, length_map. cbn. lia.
  - rewrite pending_runs_run by assumption. lia.
Qed.

Lemma render_loop_tick_witness :
  let w0 := sample_page in
  let w := run [calls_start; animation_frame] sample_page in
  calls (step calls_start w0)
  = calls w0 ++ [called_requestAnimationFrame schedule_next_run;
                 called_control_update; called_lookAt origin; called_render]
  /\ pending_runs (step calls_start w0) = 1
  /\ timers w = [{| timer_callback := run_context; timer_delay := 40%float |}]
  /\ calls (step (timer_expired 0) w)
     = calls w ++ [called_requestAnimationFrame schedule_next_run;
                   called_control_update; called_lookAt origin;
                   called_render]
  /\ pending_runs (step (timer_expired 0) w) = 1.
Proof.
  cbv zeta.
  pose proof (render_loop_tick sample_page [] (reachable_new _ _)) as H0.
  pose proof (render_loop_tick
                (run [calls_start; animation_frame] sample_page) []
                (reachable_run _ _ (reachable_new _ _))) as H.
  destruct H0 as ((C0 & _) & _ & (S0 & P0) & _).
  destruct H as (_ & _ & _ & T & _).
  destruct (T 0 {| timer_callback := run_context; timer_delay := 40%float |}
              eq_refl) as (_ & _ & _ & C1 & P1).
  split; [rewrite S0; exact C0|]. split; [exact P0|].
  split; [reflexivity|]. split; [exact C1|exact P1].
Defined.

(** ** The dimensions of the viewport *)

(** C1.  For a container that measures W > 0, the constructor leaves
    [height] equal to W / (16 / 9), and so does the resize handler for the
    width W' > 0 measured at each resize event, whatever happened before. *)
Theorem height_is_width_over_aspect_ratio
    W W' domElement devicePixelRatio w :
  (0 < W)%Z -> (0 < W')%Z ->
  offsetWidth domElement = W ->
  reachable w ->
  height (player (constructor domElement devicePixelRatio))
  = Number (num_of_Z W / (16 / 9))%float
  /\ height (player (step (window_resized W') w))
     = Number (num_of_Z W' / (16 / 9))%float
  /\ width (player (step (window_resized W') w)) = num_of_Z W'.
Proof.
  intros _ _ <- R. pose proof (reachable_invariant w R) as I.
  split; [reflexivity|].
  rewrite step_window_resized by apply I.
  cbn. now rewrite (inv_aspectRatio _ I).
Qed.

Lemma height_is_width_over_aspect_ratio_witness :
  height (player (constructor sample_container 1%float)) = Number 900%float
  /\ height (player (step (window_resized 800) sample_page))
     = Number 450%float
  /\ width (player (step (window_resized 800) sample_page)) = 800%float.
Proof.
  exact (height_is_width_over_aspect_ratio
           1600 800 sample_container 1%float sample_page
           eq_refl eq_refl eq_refl (reachable_new _ _)).
Defined.

(** C4.  The constructor writes the style of the container from what
    [this.height] holds before it is assigned: the text written carries the
    former value of the property, which on the new object is [undefined],
    and the computed height is in [this.height] only afterwards. *)
Theorem constructor_styles_container_before_height
    domElement devicePixelRatio page :
  let w := constructor_body domElement devicePixelRatio page in
  let w0 := constructor domElement devicePixelRatio in
  attr_style (container (player w))
  = Some [Lit "display:block; height:"; Str (height (player page)); Lit "px"]
  /\ style_height (container (player w))
     = Some [Str (height (player page)); Lit "px"]
  /\ height (player w)
     = Number (num_of_Z (offsetWidth domElement) / (16 / 9))%float
  /\ attr_style (container (player w0))
     = Some [Lit "display:block; height:"; Str Undefined; Lit "px"]
  /\ style_height (container (player w0)) = Some [Str Undefined; Lit "px"]
  /\ height (player w0)
     = Number (num_of_Z (offsetWidth domElement) / (16 / 9))%float.
Proof.
  cbv zeta. split; [|split; [|split; [|split; [|split]]]]; reflexivity.
Qed.

(** C9.  [show] and [hide] assign the [display] of the container and
    nothing else: with that property forgotten the page is the one it was,
    and in particular the scene, the camera and the renderer are. *)
Theorem show_hide_change_display_only w :
  without_display (show w) = without_display w
  /\ without_display (hide w) = without_display w
  /\ style_display (container (player (show w))) = Some [Lit "inherit"]
  /\ style_display (container (player (hide w))) = Some [Lit "none"]
  /\ scene (player (show w)) = scene (player w)
  /\ scene (player (hide w)) = scene (player w)
  /\ camera (player (show w)) = camera (player w)
  /\ camera (player (hide w)) = camera (player w)
  /\ renderer (player (show w)) = renderer (player w)
  /\ renderer (player (hide w)) = renderer (player w).
Proof.
  split; [|split; [|split; [|split; [|split; [|split; [|split; [|split;
    [|split]]]]]]]]; reflexivity.
Qed.

(** ** Events *)

(** C10.  The constructor emits ["loaded"] as its last call, while the
    emitter it has just created has no subscriber, so that no callback is
    invoked; ["loaded"] is never emitted again, and whatever is subscribed
    afterwards through [events], no callback is ever invoked for it. *)
Theorem loaded_is_never_delivered domElement devicePixelRatio es :
  let w0 := constructor domElement devicePixelRatio in
  (exists cs, calls w0 = cs ++ [called_emit "loaded"] /\ emissions cs = [])
  /\ subscribers (events w0) = []
  /\ delivered w0 = []
  /\ (forall callback, ~ In (callback, "loaded"%string) (delivered (run es w0)))
  /\ times_emitted "loaded" (run es w0) = 1.
Proof.
  cbv zeta.
  assert (invariant (run es (constructor domElement devicePixelRatio))) as I
    by apply reachable_invariant, reachable_run, reachable_new.
  split; [|split; [|split; [|split]]].
  - eexists. split; reflexivity.
  - reflexivity.
  - reflexivity.
  - intros callback H.
    pose proof (inv_delivered _ I) as D. rewrite Forall_forall in D.
    apply D in H. discriminate H.
  - apply I.
Qed.

(** *** Division by 16 / 9 in doubles

    The operations on doubles are specified on mantissas and exponents
    ([Prim2SF], [SFdiv]).  The properties below follow the division there:
    a width below 2^47 has a mantissa 32 * I, its quotient by 16 / 9 has the
    mantissa 36 * I or 18 * I, with a remainder that rounds down, and the
    width divided by that quotient has the mantissa of 16 / 9 again. *)

Local Open Scope Z_scope.

Lemma digits2_size p : digits2_pos p = Pos.size p.
Proof. induction p; cbn; congruence. Qed.

Lemma Zdigits2_log2 p : Zdigits2 (Zpos p) = Z.succ (Z.log2 (Zpos p)).
Proof.
  cbn [Zdigits2]. rewrite digits2_size. destruct p; cbn; try reflexivity; now rewrite Pos2Z.inj_succ.
Qed.

Lemma Zdigits2_bounds m d : 0 < d -> 2 ^ (d - 1) <= m < 2 ^ d -> Zdigits2 m = d.
Proof.
  intros Hd H.
  assert (0 < m) as Hm by (assert (0 < 2 ^ (d - 1)) by (apply Z.pow_pos_nonneg; lia); lia).
  destruct m as [|p|p]; try lia.
  rewrite Zdigits2_log2.
  rewrite (Z.log2_unique (Zpos p) (d - 1)); try lia.
  replace (Z.succ (d - 1)) with d by lia. exact H.
Qed.

Lemma div_eucl_unique a b q r : 0 <= r < b -> a = b * q + r -> Z.div_eucl a b = (q, r).
Proof.
  intros Hr E.
  pose proof (Z.div_unique_pos a b q r Hr E) as Hq.
  pose proof (Z.mod_unique_pos a b q r Hr E) as Hm.
  unfold Z.div, Z.modulo in Hq, Hm.
  destruct (Z.div_eucl a b) as [q' r']. cbn in Hq, Hm. congruence.
Qed.

Lemma round_53 s m e l :
  2 ^ 52 <= m < 2 ^ 53 -> -1074 <= e <= 971 ->
  l = loc_Exact \/ l = loc_Inexact Lt ->
  binary_round_aux prec emax s m e l = S754_finite s (Z.to_pos m) e.
Proof.
  intros Hm He Hl.
  unfold binary_round_aux, shr_fexp.
  rewrite (Zdigits2_bounds m 53) by (try lia; exact Hm).
  assert (fexp prec emax (53 + e) - e = 0) as -> by (unfold fexp, emin, prec, emax; lia).
  cbn [shr].
  assert (round_nearest_even (shr_m (shr_record_of_loc m l)) (loc_of_shr_record (shr_record_of_loc m l)) = m) as ->
    by (destruct Hl as [-> | ->]; reflexivity).
  rewrite (Zdigits2_bounds m 53) by (try lia; exact Hm).
  assert (fexp prec emax (53 + e) - e = 0) as -> by (unfold fexp, emin, prec, emax; lia).
  cbn [shr shr_record_of_loc shr_m].
  destruct m as [|p|p]; try lia.
  assert ((e <=? emax - prec) = true) as -> by (apply Z.leb_le; unfold emax, prec; lia).
  reflexivity.
Qed.

Lemma round_54 s m e l :
  2 ^ 52 <= m < 2 ^ 53 -> -1074 <= e <= 970 ->
  binary_round_aux prec emax s (2 * m) e l = S754_finite s (Z.to_pos m) (e + 1).
Proof.
  intros Hm He.
  unfold binary_round_aux, shr_fexp.
  rewrite (Zdigits2_bounds (2 * m) 54) by (try lia; change (2 ^ (54 - 1)) with (2 * 2 ^ 52); change (2 ^ 54) with (2 * 2 ^ 53); lia).
  assert (fexp prec emax (54 + e) - e = 1) as -> by (unfold fexp, emin, prec, emax; lia).
  destruct m as [|p|p]; try lia.
  change (2 * Z.pos p) with (Z.pos p~0).
  cbn [shr iter_pos].
  assert (round_nearest_even (shr_m (shr_1 (shr_record_of_loc (Z.pos p~0) l)))
            (loc_of_shr_record (shr_1 (shr_record_of_loc (Z.pos p~0) l))) = Z.pos p) as ->
    by (destruct l as [|[| |]]; reflexivity).
  rewrite (Zdigits2_bounds (Z.pos p) 53) by (try lia; exact Hm).
  assert (fexp prec emax (53 + (e + 1)) - (e + 1) = 0) as -> by (unfold fexp, emin, prec, emax; lia).
  cbn [shr shr_record_of_loc shr_m].
  assert ((e + 1 <=? emax - prec) = true) as -> by (apply Z.leb_le; unfold emax, prec; lia).
  reflexivity.
Qed.

(** Division of two finite positive numbers, by the quotient and remainder of
    the shifted mantissas. *)
Lemma SFdiv_finite mx ex my ey q r :
  Zdigits2 (Zpos mx) = 53 -> Zdigits2 (Zpos my) = 53 ->
  -1000 <= ex - ey <= 1000 ->
  0 <= r < Zpos my ->
  Zpos mx * 2 ^ 53 = Zpos my * q + r ->
  SFdiv prec emax (S754_finite false mx ex) (S754_finite false my ey)
  = binary_round_aux prec emax false q (ex - ey - 53)
      (new_location (Zpos my) r).
Proof.
  intros Dx Dy He Hr E.
  unfold SFdiv, SFdiv_core_binary. rewrite Dx, Dy.
  assert (Z.min (fexp prec emax (53 + ex - (53 + ey))) (ex - ey) = ex - ey - 53) as ->
    by (unfold fexp, emin, prec, emax; lia).
  replace (ex - ey - (ex - ey - 53)) with 53 by lia.
  rewrite Z.shiftl_mul_pow2 by lia.
  rewrite (div_eucl_unique _ _ q r Hr E). reflexivity.
Qed.

Lemma Prim2SF_sixteen_ninths : Prim2SF (16 / 9)%float = sixteen_ninths_spec.
Proof. vm_compute. reflexivity. Qed.

(** The heart: for a number whose mantissa ends in five zeros, dividing by
    16/9 is exact up to rounding down, and dividing the number by the result
    gives 16/9 back. *)
Lemma sixteen_ninths_of_mantissa mx e I :
  Zpos mx = 32 * I -> 2 ^ 47 <= I < 2 ^ 48 -> -60 <= e <= 60 ->
  SFdiv prec emax (S754_finite false mx e)
    (SFdiv prec emax (S754_finite false mx e) sixteen_ninths_spec)
  = sixteen_ninths_spec.
Proof.
  intros Hx HI He.
  assert (Zdigits2 (Zpos mx) = 53) as Dx
    by (apply Zdigits2_bounds; [lia|]; rewrite Hx;
        change (2 ^ (53 - 1)) with (32 * 2 ^ 47);
        change (2 ^ 53) with (32 * 2 ^ 48); lia).
  assert (Zdigits2 (Zpos (Z.to_pos sixteen_ninths_mantissa)) = 53) as Dc by reflexivity.
  unfold sixteen_ninths_spec.
  rewrite (SFdiv_finite mx e (Z.to_pos sixteen_ninths_mantissa) (-52) (36 * I) (16 * I) Dx Dc);
    [ | lia | change (Zpos (Z.to_pos sixteen_ninths_mantissa)) with sixteen_ninths_mantissa; unfold sixteen_ninths_mantissa; lia
      | change (Zpos (Z.to_pos sixteen_ninths_mantissa)) with sixteen_ninths_mantissa; unfold sixteen_ninths_mantissa; rewrite Hx;
        change (2 ^ 53) with 9007199254740992; lia ].
  change (Zpos (Z.to_pos sixteen_ninths_mantissa)) with sixteen_ninths_mantissa.
  assert (new_location sixteen_ninths_mantissa (16 * I)
          = loc_Inexact (Z.compare (2 * (16 * I)) sixteen_ninths_mantissa)) as ->.
  { unfold new_location. change (Z.even sixteen_ninths_mantissa) with true. cbv iota.
    unfold new_location_even.
    destruct (Z.eqb_spec (16 * I) 0) as [Z|_]; [lia|reflexivity]. }
  change (2 ^ 47) with 140737488355328 in HI.
  change (2 ^ 48) with 281474976710656 in HI.
  destruct (Z.lt_ge_cases (36 * I) (2 ^ 53)) as [A|B].
  - (* the quotient has 53 bits *)
    change (2 ^ 53) with 9007199254740992 in A.
    assert (Z.compare (2 * (16 * I)) sixteen_ninths_mantissa = Lt) as ->
      by (apply Z.compare_lt_iff; unfold sixteen_ninths_mantissa; lia).
    rewrite round_53;
      [ | change (2 ^ 52) with 4503599627370496;
          change (2 ^ 53) with 9007199254740992; lia | lia | now right ].
    assert (exists my, Z.to_pos (36 * I) = my /\ Zpos my = 36 * I) as (my & -> & Hy)
      by (exists (Z.to_pos (36 * I)); split; [reflexivity|apply Z2Pos.id; lia]).
    assert (Zdigits2 (Zpos my) = 53) as Dy
      by (apply Zdigits2_bounds; [lia|]; rewrite Hy;
          change (2 ^ (53 - 1)) with 4503599627370496;
          change (2 ^ 53) with 9007199254740992; lia).
    rewrite (SFdiv_finite mx e my (e - -52 - 53) sixteen_ninths_mantissa (16 * I) Dx Dy);
      [ | lia | lia
        | rewrite Hx, Hy; unfold sixteen_ninths_mantissa;
          change (2 ^ 53) with 9007199254740992; lia ].
    assert (new_location (Zpos my) (16 * I) = loc_Inexact Lt) as ->.
    { unfold new_location. rewrite Hy.
      replace (36 * I) with (2 * (18 * I)) by lia.
      rewrite Z.even_mul. cbn [Z.even orb]. unfold new_location_even.
      destruct (Z.eqb_spec (16 * I) 0) as [Z|_]; [lia|].
      f_equal. apply Z.compare_lt_iff. lia. }
    replace (e - (e - -52 - 53) - 53) with (-52) by lia.
    rewrite round_53;
      [ reflexivity
      | unfold sixteen_ninths_mantissa; change (2 ^ 52) with 4503599627370496;
        change (2 ^ 53) with 9007199254740992; lia | lia | now right ].
  - (* the quotient has 54 bits *)
    change (2 ^ 53) with 9007199254740992 in B.
    replace (36 * I) with (2 * (18 * I)) by lia.
    rewrite round_54;
      [ | change (2 ^ 52) with 4503599627370496;
          change (2 ^ 53) with 9007199254740992; lia | lia ].
    assert (exists my, Z.to_pos (18 * I) = my /\ Zpos my = 18 * I) as (my & -> & Hy)
      by (exists (Z.to_pos (18 * I)); split; [reflexivity|apply Z2Pos.id; lia]).
    assert (Zdigits2 (Zpos my) = 53) as Dy
      by (apply Zdigits2_bounds; [lia|]; rewrite Hy;
          change (2 ^ (53 - 1)) with 4503599627370496;
          change (2 ^ 53) with 9007199254740992; lia).
    rewrite (SFdiv_finite mx e my (e - -52 - 53 + 1) (2 * sixteen_ninths_mantissa) (16 * I) Dx Dy);
      [ | lia | lia
        | rewrite Hx, Hy; unfold sixteen_ninths_mantissa;
          change (2 ^ 53) with 9007199254740992; lia ].
    replace (e - (e - -52 - 53 + 1) - 53) with (-53) by lia.
    rewrite round_54;
      [ reflexivity
      | unfold sixteen_ninths_mantissa; change (2 ^ 52) with 4503599627370496;
        change (2 ^ 53) with 9007199254740992; lia | lia ].
Qed.

Lemma iter_xO p k : Zpos (Pos.iter xO p k) = Zpos p * 2 ^ Zpos k.
Proof.
  induction k as [|k IH] using Pos.peano_ind.
  - cbn. lia.
  - rewrite Pos.iter_succ, Pos2Z.inj_xO, IH, Pos2Z.inj_succ, Z.pow_succ_r by lia.
    lia.
Qed.

(** A positive integer below 2^47, as a double: the mantissa ends in at
    least five zeros. *)
Lemma Prim2SF_num_of_Z W :
  0 < W < 2 ^ 47 ->
  exists mx e I,
    Prim2SF (num_of_Z W) = S754_finite false mx e
    /\ Zpos mx = 32 * I /\ 2 ^ 47 <= I < 2 ^ 48 /\ -60 <= e <= 60.
Proof.
  intros HW. unfold num_of_Z.
  assert ((W <? 0) = false) as -> by (apply Z.ltb_ge; lia).
  rewrite of_uint63_spec, Uint63.of_Z_spec.
  rewrite Z.mod_small
    by (split; [lia|]; apply Z.lt_trans with (2 ^ 47); [lia|reflexivity]).
  destruct W as [|p|p]; try lia.
  cbn [binary_normalize]. unfold binary_round.
  pose proof (Zdigits2_log2 p) as D. cbn [Zdigits2] in D.
  pose proof (Z.log2_spec (Zpos p) ltac:(lia)) as [L1 L2].
  assert (0 <= Z.log2 (Zpos p)) as L0 by apply Z.log2_nonneg.
  assert (Z.log2 (Zpos p) < 47) as L47
    by (apply Z.log2_lt_pow2; lia).
  set (d := Z.log2 (Zpos p)) in *.
  rewrite D.
  assert (fexp prec emax (Z.succ d + 0) = d - 52) as ->
    by (unfold fexp, emin, prec, emax; lia).
  unfold shl_align.
  destruct (d - 52 - 0) as [|k|k] eqn:K; try lia.
  assert (Zpos k = 52 - d) as Hk by lia.
  pose proof (iter_xO p k) as M. rewrite Hk in M.
  assert (2 ^ 52 <= Zpos (Pos.iter xO p k) < 2 ^ 53) as B.
  { rewrite M.
    assert (2 ^ 52 = 2 ^ d * 2 ^ (52 - d)) as ->
      by (rewrite <- Z.pow_add_r by lia; f_equal; lia).
    assert (2 ^ 53 = 2 ^ Z.succ d * 2 ^ (52 - d)) as ->
      by (rewrite <- Z.pow_add_r by lia; f_equal; lia).
    assert (0 < 2 ^ (52 - d)) by (apply Z.pow_pos_nonneg; lia).
    split.
    - apply Z.mul_le_mono_nonneg_r; lia.
    - apply Z.mul_lt_mono_pos_r; lia. }
  rewrite round_53; [ | exact B | lia | now left ].
  rewrite Pos2Z.id.
  exists (Pos.iter xO p k), (d - 52), (Zpos p * 2 ^ (47 - d)).
  assert (Zpos (Pos.iter xO p k) = 32 * (Zpos p * 2 ^ (47 - d))) as E.
  { rewrite M. replace (52 - d) with (5 + (47 - d)) by lia.
    rewrite Z.pow_add_r by lia. change (2 ^ 5) with 32. lia. }
  split; [reflexivity|]. split; [exact E|]. split; [|lia].
  rewrite E in B.
  change (2 ^ 52) with (32 * 2 ^ 47) in B.
  change (2 ^ 53) with (32 * 2 ^ 48) in B. lia.
Qed.

Lemma sixteen_ninths_of_width W :
  0 < W < 2 ^ 47 ->
  (num_of_Z W / (num_of_Z W / (16 / 9)))%float = (16 / 9)%float.
Proof.
  intros HW.
  destruct (Prim2SF_num_of_Z W HW) as (mx & e & I & P & Hx & HI & He).
  pose proof Prim2SF_sixteen_ninths as C.
  set (c := (16 / 9)%float) in *.
  apply Prim2SF_inj.
  rewrite !FloatAxioms.div_spec, P, C.
  exact (sixteen_ninths_of_mantissa mx e I Hx HI He).
Qed.

Local Close Scope Z_scope.

Lemma sixteen_ninths_up_to_widest W :
  (0 < W <= widest)%Z ->
  aspect_for_width W = (16 / 9)%float
  /\ strict_equals (aspect_for_width W) (16 / 9)%float = true.
Proof.
  intros H.
  assert (aspect_for_width W = (16 / 9)%float) as E
    by (apply sixteen_ninths_of_width; unfold widest in H;
        change (2 ^ 47)%Z with 140737488355328%Z; lia).
  split; [exact E|]. rewrite E. reflexivity.
Qed.

Lemma aspect_of_reachable w :
  reachable w ->
  aspect (camera (player w))
  = aspect_for_width (offsetWidth (container (player w))).
Proof.
  intros R. destruct (reachable_invariant w R).
  unfold aspect_for_width.
  rewrite inv_aspect0, inv_height0, inv_aspectRatio0, inv_width0.
  reflexivity.
Qed.

Lemma offsetWidth_resized W w :
  reachable w ->
  offsetWidth (container (player (step (window_resized W) w))) = W.
Proof.
  intros R. rewrite step_window_resized by now apply reachable_invariant.
  reflexivity.
Qed.

(** C8, as the code has it.  The camera gets the aspect ratio width / height
    with height = width / (16 / 9).  For every container that measures a
    positive width (up to [widest], beyond what a DOM [long] can hold) this
    is the double 16 / 9 itself, after the constructor and after any
    resize: 1600 gives the height 900, 800 the height 450, and both the
    aspect ratio 16 / 9.  (A container that measures 0 gives NaN.) *)
Theorem camera_aspect_is_sixteen_ninths w W W' :
  reachable w ->
  (0 < W <= widest)%Z -> (0 < W' <= widest)%Z ->
  offsetWidth (container (player w)) = W ->
  aspect (camera (player w)) = (16 / 9)%float
  /\ strict_equals (aspect (camera (player w))) (16 / 9)%float = true
  /\ height (player w) = Number (num_of_Z W / (16 / 9))%float
  /\ aspect (camera (player w))
     = (num_of_Z W / ToNumber (height (player w)))%float
  /\ aspect (camera (player (step (window_resized W') w))) = (16 / 9)%float
  /\ strict_equals (aspect (camera (player (step (window_resized W') w))))
       (16 / 9)%float = true
  /\ height (player (step (window_resized W') w))
     = Number (num_of_Z W' / (16 / 9))%float
  /\ projection_aspect (camera (player (step (window_resized W') w)))
     = aspect (camera (player (step (window_resized W') w))).
Proof.
  intros R HW HW' E. pose proof (reachable_invariant w R) as I.
  assert (aspect (camera (player w)) = aspect_for_width W) as A
    by (rewrite aspect_of_reachable, E by assumption; reflexivity).
  assert (aspect (camera (player (step (window_resized W') w)))
          = aspect_for_width W') as A'.
  { rewrite aspect_of_reachable by now apply reachable_step.
    now rewrite offsetWidth_resized by assumption. }
  destruct (sixteen_ninths_up_to_widest W HW) as (L & B).
  destruct (sixteen_ninths_up_to_widest W' HW') as (L' & B').
  split; [now rewrite A|]. split; [now rewrite A|].
  split.
  { rewrite (inv_height _ I), (inv_aspectRatio _ I), (inv_width _ I), E.
    reflexivity. }
  split; [rewrite (inv_aspect _ I), (inv_width _ I), E; reflexivity|].
  split; [now rewrite A'|]. split; [now rewrite A'|].
  split.
  - rewrite step_window_resized by apply I.
    cbn. now rewrite (inv_aspectRatio _ I).
  - rewrite step_window_resized by apply I. cbn. reflexivity.
Qed.

Lemma camera_aspect_is_sixteen_ninths_witness :
  aspect (camera (player sample_page)) = (16 / 9)%float
  /\ strict_equals (aspect (camera (player sample_page))) (16 / 9)%float = true
  /\ height (player sample_page) = Number 900%float
  /\ aspect (camera (player sample_page))
     = (1600 / ToNumber (height (player sample_page)))%float
  /\ aspect (camera (player (step (window_resized 800) sample_page)))
     = (16 / 9)%float
  /\ strict_equals
       (aspect (camera (player (step (window_resized 800) sample_page))))
       (16 / 9)%float = true
  /\ height (player (step (window_resized 800) sample_page))
     = Number 450%float
  /\ projection_aspect (camera (player (step (window_resized 800) sample_page)))
     = aspect (camera (player (step (window_resized 800) sample_page))).
Proof.
  apply (camera_aspect_is_sixteen_ninths sample_page 1600 800).
  - apply reachable_new.
  - split; [reflexivity|discriminate].
  - split; [reflexivity|discriminate].
  - reflexivity.
Defined.

(** C8, refuted as stated: once [hide] has taken the container out of the
    layout it measures 0, and a resize then leaves width 0, height 0 and the
    aspect ratio 0 / 0, which is NaN and not 16 / 9. *)
Lemma camera_aspect_of_hidden_container :
  let w := run [calls_hide; window_resized 0] sample_page in
  width (player w) = 0%float
  /\ height (player w) = Number 0%float
  /\ is_nan (aspect (camera (player w))) = true
  /\ strict_equals (aspect (camera (player w))) (16 / 9)%float = false.
Proof.
  cbv zeta. split; [|split; [|split]]; vm_compute; reflexivity.
Qed.

(** ** Loading *)

Lemma loaded_spec o w :
  scene_children (scene (player (loadObj_loaded o w)))
  = scene_children (scene (player w)) ++ [model_node (lowered o)]
  /\ calls (loadObj_loaded o w)
     = calls w ++ [called_scene_add (model_node (lowered o));
                   called_control_reset; called_emit "model-loaded"]
  /\ loads (loadObj_loaded o w) = loads w.
Proof.
  split; [|split]; cbn; rewrite <- ?app_assoc; reflexivity.
Qed.

(** What a completed load runs: the callback of the request, and for
    [loadObj] the progress handler of its manager after it. *)
Lemma step_loadObj_completed w i url o :
  nth_error (loads w) i = Some (loadObj_request url) ->
  step (load_completed i (loaded_object o)) w
  = console_log_line (item_end_line url)
      (loadObj_loaded o (set_loads (remove_nth i (loads w)) w)).
Proof.
  intros E. unfold step. rewrite E. reflexivity.
Qed.

Lemma step_materials_completed w i objUrl mtlUrl m :
  nth_error (loads w) i = Some (loadMTL_materials_request objUrl mtlUrl) ->
  step (load_completed i (loaded_materials m)) w
  = loadMTL_materials_loaded objUrl
      (set_onProgress (Some console_log) LoadingManager_new) m
      (set_loads (remove_nth i (loads w)) w).
Proof.
  intros E. unfold step. rewrite E. reflexivity.
Qed.

Lemma step_object_completed w i objUrl m o :
  nth_error (loads w) i = Some (loadMTL_object_request objUrl m) ->
  step (load_completed i (loaded_object o)) w
  = loadMTL_object_loaded o (set_loads (remove_nth i (loads w)) w).
Proof.
  intros E. unfold step. rewrite E. reflexivity.
Qed.

(** C2, on the code.  A completed [loadObj] adds exactly one node to the
    scene and emits ["model-loaded"] exactly once, but the node is not
    centred: the callback lowers it by half the height of its bounding box
    instead of by the height of the centre of the box.  A model whose
    vertices lie between y = 10 and y = 20 is lowered by 5: its box then
    reaches from 5 to 15 and has its centre at y = 10, not at 0. *)
Theorem loadObj_does_not_centre w i url o :
  nth_error (loads w) i = Some (loadObj_request url) ->
  let w' := step (load_completed i (loaded_object o)) w in
  (scene_children (scene (player w'))
   = scene_children (scene (player w)) ++ [model_node (lowered o)]
   /\ emissions (calls w')
      = emissions (calls w) ++ ["model-loaded"%string]
   /\ position (lowered o)
      = vec3 (vx (position o))
          (vy (position o) - vy (getSize (setFromObject o)) / 2)%float
          (vz (position o))
   /\ geometry (lowered o) = geometry o)
  /\ vy (box_min (setFromObject sample_object)) = 10%float
  /\ vy (box_max (setFromObject sample_object)) = 20%float
  /\ vy (getSize (setFromObject sample_object)) = 10%float
  /\ vy (position (lowered sample_object)) = (-5)%float
  /\ vy (box_min (setFromObject (lowered sample_object))) = 5%float
  /\ vy (box_max (setFromObject (lowered sample_object))) = 15%float
  /\ vy (getCenter (setFromObject (lowered sample_object))) = 10%float
  /\ strict_equals (vy (getCenter (setFromObject (lowered sample_object))))
       0%float = false.
Proof.
  intros E. cbv zeta.
  rewrite (step_loadObj_completed w i url o E).
  split.
  - split; [reflexivity|]. split; [|split; reflexivity].
    cbn. rewrite <- !app_assoc, !emissions_app. reflexivity.
  - split; [|split; [|split; [|split; [|split; [|split; [|split]]]]]];
      vm_compute; reflexivity.
Qed.

Lemma loadObj_does_not_centre_witness :
  let w0 := run [calls_loadObj "model.obj"] sample_page in
  let w := step (load_completed 0 (loaded_object sample_object)) w0 in
  scene_children (scene (player w))
  = constructor_scene ++ [model_node (lowered sample_object)]
  /\ emissions (calls w) = ["loaded"%string; "model-loaded"%string]
  /\ vy (position (lowered sample_object)) = (-5)%float
  /\ vy (getCenter (setFromObject (lowered sample_object))) = 10%float
  /\ strict_equals (vy (getCenter (setFromObject (lowered sample_object))))
       0%float = false.
Proof.
  cbv zeta.
  pose proof (loadObj_does_not_centre
                (run [calls_loadObj "model.obj"] sample_page)
                0 "model.obj" sample_object eq_refl) as H.
  cbv zeta in H.
  destruct H as ((H1 & H2 & _) & _ & _ & _ & H3 & _ & _ & H4 & H5).
  split; [exact H1|]. split; [exact H2|]. split; [exact H3|].
  split; [exact H4|exact H5].
Defined.

(** C3.  [loadMTL] begins the material load and nothing else.  When that
    load completes, its callback preloads the material set and only then
    begins the geometry load, with the preloaded set.  When the geometry
    load completes, its callback lowers the object by half the height of
    its bounding box, adds it to the scene, resets the controls and emits
    ["model-loaded"] to the subscribers: the calls made and the node added
    are those of a completed [loadObj].  (The sample object, 10 high, is
    lowered by 5.) *)
Theorem loadMTL_materials_before_geometry
    w w1 w2 w3 objUrl mtlUrl url i j k m o :
  nth_error (loads w1) i = Some (loadMTL_materials_request objUrl mtlUrl) ->
  nth_error (loads w2) j = Some (loadMTL_object_request objUrl (preload m)) ->
  nth_error (loads w3) k = Some (loadObj_request url) ->
  let w1' := step (load_completed i (loaded_materials m)) w1 in
  let w2' := step (load_completed j (loaded_object o)) w2 in
  let w3' := step (load_completed k (loaded_object o)) w3 in
  let added :=
    model_node
      {| position :=
           vec3 (vx (position o))
             (vy (position o) - vy (getSize (setFromObject o)) / 2)%float
             (vz (position o));
         geometry := geometry o |} in
  (calls (loadMTL objUrl mtlUrl w) = calls w ++ [called_MTLLoader_load mtlUrl]
   /\ loads (loadMTL objUrl mtlUrl w)
      = loads w ++ [loadMTL_materials_request objUrl mtlUrl]
   /\ player (loadMTL objUrl mtlUrl w) = player w)
  /\ (calls w1'
      = calls w1 ++ [called_preload m; called_setMaterials (preload m);
                     called_OBJLoader_load objUrl (Some (preload m))]
      /\ loads w1'
         = remove_nth i (loads w1)
           ++ [loadMTL_object_request objUrl (preload m)]
      /\ preloaded (preload m) = true
      /\ player w1' = player w1)
  /\ (calls w2'
      = calls w2 ++ [called_scene_add added; called_control_reset;
                     called_emit "model-loaded"]
      /\ scene_children (scene (player w2'))
         = scene_children (scene (player w2)) ++ [added]
      /\ delivered w2'
         = delivered w2
           ++ map (fun callback => (callback, "model-loaded"%string))
                (subscribed_to "model-loaded" (events w2))
      /\ loads w2' = remove_nth j (loads w2))
  /\ (calls w3'
      = calls w3 ++ [called_scene_add added; called_control_reset;
                     called_emit "model-loaded"]
      /\ scene_children (scene (player w3'))
         = scene_children (scene (player w3)) ++ [added]
      /\ delivered w3'
         = delivered w3
           ++ map (fun callback => (callback, "model-loaded"%string))
                (subscribed_to "model-loaded" (events w3)))
  /\ getSize (setFromObject sample_object) = vec3 8%float 10%float 2%float
  /\ lowered sample_object
     = {| position := vec3 0%float (-5)%float 0%float;
          geometry := geometry sample_object |}.
Proof.
  intros E1 E2 E3. cbv zeta.
  rewrite (step_materials_completed w1 i objUrl mtlUrl m E1).
  rewrite (step_object_completed w2 j objUrl (preload m) o E2).
  rewrite (step_loadObj_completed w3 k url o E3).
  split; [|split; [|split; [|split; [|split]]]].
  - split; [|split]; reflexivity.
  - split; [|split; [|split]]; try reflexivity.
    cbn. rewrite <- !app_assoc. reflexivity.
  - split; [|split; [|split]]; try reflexivity.
    cbn. rewrite <- !app_assoc. reflexivity.
  - split; [|split]; try reflexivity.
    cbn. rewrite <- !app_assoc. reflexivity.
  - vm_compute. reflexivity.
  - vm_compute. reflexivity.
Qed.

Lemma loadMTL_materials_before_geometry_witness :
  let w1 := loadMTL "model.obj" "model.mtl" sample_page in
  let w2 := step (load_completed 0 (loaded_materials sample_materials)) w1 in
  let w3 := step (load_completed 0 (loaded_object sample_object)) w2 in
  calls w1 = calls sample_page ++ [called_MTLLoader_load "model.mtl"]
  /\ calls w2
     = calls w1 ++ [called_preload sample_materials;
                    called_setMaterials (preload sample_materials);
                    called_OBJLoader_load "model.obj"
                      (Some (preload sample_materials))]
  /\ calls w3
     = calls w2
       ++ [called_scene_add
             (model_node
                {| position := vec3 0%float (-5)%float 0%float;
                   geometry := geometry sample_object |});
           called_control_reset; called_emit "model-loaded"]
  /\ scene_children (scene (player w3))
     = constructor_scene
       ++ [model_node
             {| position := vec3 0%float (-5)%float 0%float;
                geometry := geometry sample_object |}].
Proof.
  cbv zeta.
  pose proof (loadMTL_materials_before_geometry
                sample_page
                (loadMTL "model.obj" "model.mtl" sample_page)
                (step (load_completed 0 (loaded_materials sample_materials))
                   (loadMTL "model.obj" "model.mtl" sample_page))
                (loadObj "model.obj" sample_page)
                "model.obj" "model.mtl" "model.obj" 0 0 0
                sample_materials sample_object
                eq_refl eq_refl eq_refl) as H.
  cbv zeta in H.
  destruct H as ((H1 & _) & (H2 & _) & (H3 & H4 & _) & _).
  split; [exact H1|split; [exact H2|split; [exact H3|exact H4]]].
Defined.

(** C7, on the code.  No request the player makes carries an error
    callback: [loadObj] and the inner load of [loadMTL] hand over
    [manager.onError], which nothing has set, and the material load of
    [loadMTL] gets no error callback at all; the manager of [loadObj] has
    no error handler either.  So the error of a failed load reaches
    nothing: whatever the error is, the page after the failure is the
    same.  The failure calls no collaborator, emits nothing and leaves the
    player as it was; a failed load of [loadMTL] prints nothing, and a
    failed [loadObj] prints only the line of its manager's progress
    handler, the url with the counts 1 and 1. *)
Theorem load_failure_is_not_logged w i q error error' :
  reachable w ->
  nth_error (loads w) i = Some q ->
  request_onError q = None
  /\ match request_manager q with
     | Some m => manager_onError m = None
     | None => True
     end
  /\ step (load_failed i error) w = step (load_failed i error') w
  /\ console (step (load_failed i error) w)
     = console w
       ++ match request_manager q with
          | Some _ => [item_end_line (request_url q)]
          | None => []
          end
  /\ calls (step (load_failed i error) w) = calls w
  /\ delivered (step (load_failed i error) w) = delivered w
  /\ player (step (load_failed i error) w) = player w
  /\ loads (step (load_failed i error) w) = remove_nth i (loads w).
Proof.
  intros R E.
  pose proof (nth_error_Forall _ _ _ _
                (inv_loads _ (reachable_invariant w R)) E) as M.
  unfold step. rewrite E.
  destruct M as [(u & ->)|[(u & v & ->)|(u & m & ->)]];
    (split; [|split; [|split; [|split; [|split; [|split; [|split]]]]]]);
    try reflexivity; try exact Logic.I;
    cbn; now rewrite app_nil_r.
Qed.

Lemma load_failure_is_not_logged_witness :
  let w := run [calls_loadMTL "model.obj" "model.mtl"] sample_page in
  let w' := run [calls_loadObj "model.obj"] sample_page in
  console (step (load_failed 0 "404") w) = console w
  /\ calls (step (load_failed 0 "404") w) = calls w
  /\ loads (step (load_failed 0 "404") w) = []
  /\ console (step (load_failed 0 "404") w')
     = console w' ++ [item_end_line "model.obj"]
  /\ step (load_failed 0 "404") w' = step (load_failed 0 "timeout") w'.
Proof.
  cbv zeta.
  pose proof (load_failure_is_not_logged
                (run [calls_loadMTL "model.obj" "model.mtl"] sample_page)
                0 (loadMTL_materials_request "model.obj" "model.mtl")
                "404" "404"
                (reachable_run _ _ (reachable_new _ _)) eq_refl) as H.
  pose proof (load_failure_is_not_logged
                (run [calls_loadObj "model.obj"] sample_page)
                0 (loadObj_request "model.obj") "404" "timeout"
                (reachable_run _ _ (reachable_new _ _)) eq_refl) as H'.
  destruct H as (_ & _ & _ & H1 & H2 & _ & _ & H3).
  destruct H' as (_ & _ & H4 & H5 & _).
  split; [rewrite H1; apply app_nil_r|].
  split; [exact H2|]. split; [exact H3|].
  split; [exact H5|exact H4].
Defined.

(** ** What the page keeps *)

Lemma count_calls_appended p w w' cs :
  calls w' = calls w ++ cs ->
  count_calls p w' = count_calls p w + List.length (filter p cs).
Proof.
  unfold count_calls. intros ->. now rewrite filter_app, length_app.
Qed.

Lemma times_emitted_appended name w w' cs :
  calls w' = calls w ++ cs ->
  times_emitted name w'
  = times_emitted name w
    + List.length (filter (String.eqb name) (emissions cs)).
Proof.
  unfold times_emitted. intros ->.
  now rewrite emissions_app, filter_app, length_app.
Qed.

Lemma filter_constant_map {A : Type} (p : Call -> bool) (c : Call) (l : list A) :
  List.length (filter p (map (fun _ => c) l))
  = if p c then List.length l else 0.
Proof.
  induction l as [|x l IH]; cbn.
  - now destruct (p c).
  - destruct (p c); cbn; auto.
Qed.

(** Two counts that were equal stay so when the calls added add as many to
    the one as to the other. *)
Lemma counts_stay_equal p q w w' cs :
  calls w' = calls w ++ cs ->
  List.length (filter p cs) = List.length (filter q cs) ->
  count_calls p w = count_calls q w ->
  count_calls p w' = count_calls q w'.
Proof.
  intros E H K.
  rewrite (count_calls_appended p w w' cs E),
    (count_calls_appended q w w' cs E). lia.
Qed.

Lemma scheduled_stays w w' cs :
  calls w' = calls w ++ cs ->
  List.length (filter is_requestAnimationFrame cs) + List.length (frames w)
  = List.length (filter is_setTimeout cs) + List.length (frames w') ->
  count_calls is_requestAnimationFrame w
  = count_calls is_setTimeout w + List.length (frames w) ->
  count_calls is_requestAnimationFrame w'
  = count_calls is_setTimeout w' + List.length (frames w').
Proof.
  intros E H K.
  rewrite (count_calls_appended _ w w' cs E),
    (count_calls_appended _ w w' cs E). lia.
Qed.

Lemma scene_stays w w' cs :
  calls w' = calls w ++ cs ->
  scene_children (scene (player w')) = scene_children (scene (player w)) ->
  filter (String.eqb "model-loaded") (emissions cs) = [] ->
  filter is_control_reset cs = [] ->
  (exists models,
     scene_children (scene (player w))
     = constructor_scene ++ map model_node models
     /\ List.length models = times_emitted "model-loaded" w
     /\ List.length models = count_calls is_control_reset w) ->
  exists models,
    scene_children (scene (player w'))
    = constructor_scene ++ map model_node models
    /\ List.length models = times_emitted "model-loaded" w'
    /\ List.length models = count_calls is_control_reset w'.
Proof.
  intros E S H1 H2 (models & Hs & Hm & Hr). exists models.
  rewrite S, (times_emitted_appended _ w w' cs E),
    (count_calls_appended _ w w' cs E), H1, H2. cbn.
  repeat split; auto; lia.
Qed.

Lemma targets_stay w w' cs :
  calls w' = calls w ++ cs ->
  Forall looks_at_origin cs ->
  Forall looks_at_origin (calls w) ->
  Forall looks_at_origin (calls w').
Proof.
  intros -> H K. apply Forall_app. now split.
Qed.

(** The bookkeeping of a step that adds the calls it adds and leaves the
    scene and the frames as they were. *)
Ltac bookkeeping K :=
  lazymatch goal with
  | |- count_calls _ _ = count_calls _ _ =>
      eapply counts_stay_equal; [ appended | reflexivity | apply K ]
  | |- count_calls _ _ = (count_calls _ _ + _)%nat =>
      eapply scheduled_stays; [ appended | reflexivity | apply K ]
  | |- Forall looks_at_origin _ =>
      eapply targets_stay;
      [ appended | solve [ repeat constructor ] | apply K ]
  | |- exists _, scene_children _ = _ /\ _ =>
      eapply scene_stays;
      [ appended | reflexivity | reflexivity | reflexivity | apply K ]
  | |- exists _, console _ = _ /\ _ => exact (kept_console _ _ _ K)
  | |- _ => solve [ destruct K; cbn; auto ]
  end.

Lemma kept_constructor domElement devicePixelRatio :
  kept domElement devicePixelRatio (constructor domElement devicePixelRatio).
Proof.
  split.
  all: try (vm_compute; reflexivity).
  - cbn. apply in_or_app. right. now left.
  - exists []. split; [|split]; vm_compute; reflexivity.
  - exists []. split; [vm_compute; reflexivity|constructor].
  - vm_compute. repeat constructor.
Qed.

Lemma kept_runContext d r w :
  invariant w -> kept d r w -> kept d r (_runContext w).
Proof.
  intros I K. split; try bookkeeping K.
  - eapply scheduled_stays; [ appended | | apply K ].
    cbn. rewrite length_app. cbn. lia.
  - eapply targets_stay; [ appended | | apply K ].
    rewrite (inv_scene_position _ I). repeat constructor.
Qed.

Lemma kept_set_timers d r ts w : kept d r w -> kept d r (set_timers ts w).
Proof.
  intros K. split; bookkeeping K.
Qed.

Lemma kept_set_loads d r qs w : kept d r w -> kept d r (set_loads qs w).
Proof.
  intros K. split; bookkeeping K.
Qed.

Lemma kept_printed d r line w :
  loader_line line -> kept d r w -> kept d r (console_log_line line w).
Proof.
  intros L K. split; try bookkeeping K.
  destruct (kept_console _ _ _ K) as (lines & E & F).
  exists (lines ++ [line]). cbn. rewrite E. split; [reflexivity|].
  apply Forall_app. split; [exact F|]. now constructor.
Qed.

Lemma kept_item_ended d r q w :
  made_by_player q -> kept d r w -> kept d r (item_ended q w).
Proof.
  intros [(u & ->)|[(u & v & ->)|(u & m & ->)]] K; try exact K.
  change (kept d r (console_log_line (item_end_line u) w)).
  apply kept_printed; [|exact K]. right. now exists u.
Qed.

Lemma no_error_handler q line w :
  made_by_player q ->
  run_logger (request_onError q) line w = w /\ item_failed q w = w.
Proof.
  intros [(u & ->)|[(u & v & ->)|(u & m & ->)]]; split; reflexivity.
Qed.

Lemma kept_loaded d r o w :
  kept d r w -> kept d r (loadObj_loaded o w).
Proof.
  intros K. split; try bookkeeping K.
  destruct (kept_scene _ _ _ K) as (models & Hs & Hm & Hr).
  exists (models ++ [lowered o]).
  rewrite (times_emitted_appended "model-loaded" w (loadObj_loaded o w)
             [called_scene_add (model_node (lowered o));
              called_control_reset; called_emit "model-loaded"])
    by appended.
  rewrite (count_calls_appended is_control_reset w (loadObj_loaded o w)
             [called_scene_add (model_node (lowered o));
              called_control_reset; called_emit "model-loaded"])
    by appended.
  split; [|split].
  - cbn. rewrite Hs, map_app, <- app_assoc. reflexivity.
  - rewrite length_app, Hm. reflexivity.
  - rewrite length_app, Hr. reflexivity.
Qed.

Lemma kept_step d r e w :
  invariant w -> kept d r w -> kept d r (step e w).
Proof.
  intros I K. destruct e.
  - now apply kept_runContext.
  - split; bookkeeping K.
  - split; bookkeeping K.
  - split; bookkeeping K.
  - split; bookkeeping K.
  - split; bookkeeping K.
  - rewrite step_window_resized by apply I.
    split; try bookkeeping K.
    cbn. apply in_or_app. right. now left.
  - unfold step. rewrite dispatch_mousemove by apply I.
    split; bookkeeping K.
  - unfold step.
    destruct (run_frame_callbacks (frames w) (set_frames [] w))
      as (Hp & Hc & Hl & Hq & Hf & Hd & Ht & Hs).
    cbn in Hp, Hc, Hl, Hq, Hf, Hd, Ht, Hs.
    split; try (rewrite Hp; apply K); try (rewrite Hc; apply K).
    + eapply scene_stays; [ exact Hs | now rewrite Hp | | | apply K ].
      * now rewrite emissions_setTimeout.
      * apply length_zero_iff_nil. now rewrite filter_constant_map.
    + eapply counts_stay_equal; [ exact Hs | | apply K ].
      now rewrite !filter_constant_map.
    + eapply counts_stay_equal; [ exact Hs | | apply K ].
      now rewrite !filter_constant_map.
    + eapply counts_stay_equal; [ exact Hs | | apply K ].
      now rewrite !filter_constant_map.
    + eapply scheduled_stays; [ exact Hs | | apply K ].
      rewrite Hf, !filter_constant_map. cbn. lia.
    + eapply targets_stay; [ exact Hs | | apply K ].
      apply Forall_forall. intros c H. apply in_map_iff in H.
      destruct H as (x & <- & _). now cbn.
  - unfold step. destruct (nth_error (timers w) i) as [[[] delay]|] eqn:E; auto.
    cbn [timer_callback run_timer_callback].
    apply kept_runContext.
    + apply invariant_set_timers; auto. apply Forall_remove_nth, I.
    + now apply kept_set_timers.
  - unfold step. destruct (nth_error (loads w) i) as [q|]; auto.
    destruct (request_onProgress q) as [[]|]; cbn [run_logger]; auto.
    apply kept_printed; [|exact K]. left. now exists progress.
  - unfold step. destruct (nth_error (loads w) i) as [q|] eqn:E; auto.
    pose proof (nth_error_Forall _ _ _ _ (inv_loads _ I) E) as M.
    unfold andThen.
    rewrite (proj2 (no_error_handler q [] _ M)).
    rewrite (proj1 (no_error_handler q [Lit error] _ M)).
    now apply kept_item_ended, kept_set_loads.
  - unfold step. destruct (nth_error (loads w) i) as [q|] eqn:E; auto.
    destruct (loads_that (request_loader q) r0); auto.
    pose proof (nth_error_Forall _ _ _ _ (inv_loads _ I) E) as M.
    pose proof (kept_set_loads d r (remove_nth i (loads w)) w K) as K'.
    unfold andThen. apply kept_item_ended; [exact M|].
    destruct (request_onLoad q), r0; cbn [run_callback]; auto.
    + now apply kept_loaded.
    + split; bookkeeping K'.
    + now apply kept_loaded.
Qed.

Lemma invariant_run es : forall w, invariant w -> invariant (run es w).
Proof.
  induction es as [|e es IH]; intros w I; cbn; auto.
  apply IH. now apply invariant_step.
Qed.

Lemma kept_run d r es :
  forall w, invariant w -> kept d r w -> kept d r (run es w).
Proof.
  induction es as [|e es IH]; intros w I K; cbn; auto.
  apply IH.
  - now apply invariant_step.
  - now apply kept_step.
Qed.

Lemma kept_reached d r es : kept d r (run es (constructor d r)).
Proof.
  apply kept_run.
  - apply invariant_constructor.
  - apply kept_constructor.
Qed.

(** ** The configuration and the viewport *)

(** X1.  What the constructor configures is never changed afterwards:
    whatever the course of events, the frame rate is 25, the aspect ratio
    16 / 9, the camera has the field of view 45 between the planes 1 and
    2500 and carries the point light, the controls have the parameters the
    constructor gave them, the renderer has the pixel ratio of the window,
    and the two listeners of the constructor are the only ones. *)
Theorem configuration_is_kept domElement devicePixelRatio es :
  let w := run es (constructor domElement devicePixelRatio) in
  fps (player w) = 25%float
  /\ aspectRatio (player w) = (16 / 9)%float
  /\ fov (camera (player w)) = 45%float
  /\ near (camera (player w)) = 1%float
  /\ far (camera (player w)) = 2500%float
  /\ camera_children (camera (player w))
     = camera_children (camera (player (constructor domElement devicePixelRatio)))
  /\ control (player w) = configured_control
  /\ pixelRatio (renderer (player w)) = devicePixelRatio
  /\ listeners w = constructor_listeners.
Proof.
  cbv zeta.
  assert (invariant (run es (constructor domElement devicePixelRatio))) as I
    by apply invariant_run, invariant_constructor.
  pose proof (kept_reached domElement devicePixelRatio es) as K.
  destruct I, K.
  split; [|split; [|split; [|split; [|split; [|split; [|split; [|split]]]]]]];
    assumption.
Qed.

(** X2.  The renderer and the centre follow the viewport: whatever the
    course of events, the size of the renderer is (width, height), the
    centre is (width / 2, height / 2), the projection matrix of the camera
    was computed from its current aspect ratio, the canvas is a child of
    the container, and width is what the container measured last. *)
Theorem renderer_follows_viewport domElement devicePixelRatio es :
  let w := run es (constructor domElement devicePixelRatio) in
  size_width (renderer (player w)) = width (player w)
  /\ size_height (renderer (player w)) = ToNumber (height (player w))
  /\ px (center (player w)) = (width (player w) / 2)%float
  /\ py (center (player w)) = (ToNumber (height (player w)) / 2)%float
  /\ projection_aspect (camera (player w)) = aspect (camera (player w))
  /\ In canvas (childNodes (container (player w)))
  /\ width (player w) = num_of_Z (offsetWidth (container (player w))).
Proof.
  cbv zeta.
  assert (invariant (run es (constructor domElement devicePixelRatio))) as I
    by apply invariant_run, invariant_constructor.
  pose proof (kept_reached domElement devicePixelRatio es) as K.
  destruct I, K.
  split; [|split; [|split; [|split; [|split; [|split]]]]]; try assumption.
  - now rewrite kept_center0.
  - now rewrite kept_center0.
Qed.

(** ** The pointer *)

(** X3.  The pointer position starts at the centre, and after a mouse move
    it is half the offset of the pointer from the centre of the viewport as
    it is now, also after resizes: ((clientX - width / 2) / 2,
    (clientY - height / 2) / 2) with height = width / (16 / 9). *)
Theorem mouse_is_measured_from_centre
    domElement devicePixelRatio es clientX clientY :
  let w0 := constructor domElement devicePixelRatio in
  let w := run es w0 in
  mouse (player w0) = center (player w0)
  /\ mouse (player (step (mouse_moved clientX clientY) w))
     = {| px := ((num_of_Z clientX - width (player w) / 2) / 2)%float;
          py := ((num_of_Z clientY
                  - width (player w) / (16 / 9) / 2) / 2)%float |}.
Proof.
  cbv zeta. split; [reflexivity|].
  assert (invariant (run es (constructor domElement devicePixelRatio))) as I
    by apply invariant_run, invariant_constructor.
  pose proof (kept_reached domElement devicePixelRatio es) as K.
  unfold step. rewrite dispatch_mousemove by apply I.
  cbn. rewrite (kept_center _ _ _ K), (inv_height _ I), (inv_aspectRatio _ I).
  reflexivity.
Qed.

Lemma run_frame_callbacks_closed fs :
  forall w,
    fold_left (fun w f => run_frame_callback f w) fs w
    = set_calls
        (calls w
         ++ map (fun _ => called_setTimeout run_context
                            (1000 / fps (player w))%float) fs)
        (set_timers
           (timers w
            ++ map (fun _ => {| timer_callback := run_context;
                                timer_delay := (1000 / fps (player w))%float |})
                 fs) w).
Proof.
  induction fs as [|f fs IH]; intros w.
  - cbn. rewrite !app_nil_r. now destruct w.
  - cbn [fold_left]. rewrite IH. destruct f. cbn.
    now rewrite <- !app_assoc.
Qed.

Lemma step_ignores_mouse e w :
  invariant w ->
  is_mouse_moved e = false ->
  forget_mouse (step e (forget_mouse w)) = forget_mouse (step e w).
Proof.
  intros I N. destruct e; try discriminate N; try reflexivity.
  - rewrite !step_window_resized by apply I. reflexivity.
  - unfold step. rewrite !run_frame_callbacks_closed. reflexivity.
  - unfold step. cbn [timers forget_mouse assign set_player].
    destruct (nth_error (timers w) i) as [[[] delay]|]; reflexivity.
  - unfold step. cbn [loads forget_mouse assign set_player].
    destruct (nth_error (loads w) i) as [q|]; [|reflexivity].
    destruct (request_onProgress q) as [[]|]; reflexivity.
  - unfold step. cbn [loads forget_mouse assign set_player].
    destruct (nth_error (loads w) i) as [q|]; [|reflexivity].
    unfold item_ended, item_failed, itemEnd, itemError.
    destruct (request_onError q) as [[]|];
      destruct (request_manager q) as [m|]; try reflexivity;
      destruct (strict_equals _ _);
      destruct (manager_onProgress m) as [[]|];
      destruct (manager_onLoad m) as [[]|];
      destruct (manager_onError m) as [[]|]; reflexivity.
  - unfold step. cbn [loads forget_mouse assign set_player].
    destruct (nth_error (loads w) i) as [q|]; [|reflexivity].
    destruct (loads_that (request_loader q) r); [|reflexivity].
    unfold item_ended, itemEnd.
    destruct (request_onLoad q), r;
      destruct (request_manager q) as [g|]; try reflexivity;
      destruct (strict_equals _ _);
      destruct (manager_onProgress g) as [[]|];
      destruct (manager_onLoad g) as [[]|]; reflexivity.
Qed.

Lemma mouse_moved_changes_mouse clientX clientY w :
  invariant w ->
  forget_mouse (step (mouse_moved clientX clientY) w) = forget_mouse w.
Proof.
  intros I. unfold step. rewrite dispatch_mousemove by apply I. reflexivity.
Qed.

Lemma run_ignores_mouse es :
  forall w1 w2,
    invariant w1 -> invariant w2 ->
    forget_mouse w1 = forget_mouse w2 ->
    forget_mouse (run es w1)
    = forget_mouse (run (filter (fun e => negb (is_mouse_moved e)) es) w2).
Proof.
  induction es as [|e es IH]; intros w1 w2 I1 I2 E; cbn [run filter].
  - exact E.
  - unfold andThen at 1. destruct (is_mouse_moved e) eqn:M; cbn [negb].
    + apply IH; auto using invariant_step.
      destruct e; try discriminate M.
      now rewrite mouse_moved_changes_mouse.
    + cbn [run]. unfold andThen.
      apply IH; auto using invariant_step.
      rewrite <- (step_ignores_mouse e w1 I1 M),
        <- (step_ignores_mouse e w2 I2 M).
      now rewrite E.
Qed.

(** X4.  The pointer position is tracked and never used: leaving the mouse
    moves out of any course of events changes nothing on the page but the
    pointer position, so not the camera, the scene or the calls made. *)
Theorem pointer_is_never_used domElement devicePixelRatio es :
  let w0 := constructor domElement devicePixelRatio in
  let es' := filter (fun e => negb (is_mouse_moved e)) es in
  forget_mouse (run es w0) = forget_mouse (run es' w0)
  /\ calls (run es w0) = calls (run es' w0)
  /\ camera (player (run es w0)) = camera (player (run es' w0))
  /\ scene (player (run es w0)) = scene (player (run es' w0))
  /\ renderer (player (run es w0)) = renderer (player (run es' w0)).
Proof.
  cbv zeta.
  pose proof (run_ignores_mouse es _ _
                (invariant_constructor domElement devicePixelRatio)
                (invariant_constructor domElement devicePixelRatio)
                eq_refl) as E.
  split; [exact E|].
  split; [exact (f_equal calls E)|].
  split; [exact (f_equal (fun w => camera (player w)) E)|].
  split; [exact (f_equal (fun w => scene (player w)) E)|].
  exact (f_equal (fun w => renderer (player w)) E).
Qed.

(** ** Resizing *)

Lemma remove_children_all c : remove_children c = [].
Proof.
  induction c as [|x c IH]; cbn; auto.
Qed.

(** X5.  The constructor keeps what the container holds and appends the
    canvas; the resize handler removes every child of the container,
    whatever it is, and leaves the canvas as the only one. *)
Theorem resize_leaves_only_canvas domElement devicePixelRatio es W :
  let w0 := constructor domElement devicePixelRatio in
  childNodes (container (player w0))
  = filter (fun c => negb (DomNode_eqb c canvas)) (childNodes domElement)
    ++ [canvas]
  /\ childNodes (container (player (step (window_resized W) (run es w0))))
     = [canvas].
Proof.
  cbv zeta. split; [reflexivity|].
  rewrite step_window_resized
    by apply invariant_run, invariant_constructor.
  cbn. now rewrite remove_children_all.
Qed.

Lemma player_resized W w :
  invariant w ->
  player (step (window_resized W) w) = resized W (player w).
Proof.
  intros I. rewrite step_window_resized by apply I.
  cbn. rewrite remove_children_all. reflexivity.
Qed.

(** X6.  The resize handler writes the style of the container from the
    height of before the resize, so the style is one resize behind: a
    second resize to the same width writes the height of the first, and
    from then on a further resize to that width changes nothing of the
    player. *)
Theorem resize_styles_with_former_height domElement devicePixelRatio es W :
  let w := run es (constructor domElement devicePixelRatio) in
  let w1 := step (window_resized W) w in
  let w2 := step (window_resized W) w1 in
  let w3 := step (window_resized W) w2 in
  attr_style (container (player w1))
  = Some [Lit "display:block; height:"; Str (height (player w)); Lit "px"]
  /\ style_height (container (player w1))
     = Some [Str (height (player w)); Lit "px"]
  /\ height (player w1) = Number (num_of_Z W / (16 / 9))%float
  /\ attr_style (container (player w2))
     = Some [Lit "display:block; height:";
             Str (Number (num_of_Z W / (16 / 9))%float); Lit "px"]
  /\ without_style (player w2) = without_style (player w1)
  /\ player w3 = player w2.
Proof.
  cbv zeta.
  assert (invariant (run es (constructor domElement devicePixelRatio))) as I
    by apply invariant_run, invariant_constructor.
  pose proof (invariant_step (window_resized W) _ I) as I1.
  pose proof (invariant_step (window_resized W) _ I1) as I2.
  rewrite (player_resized W _ I2), (player_resized W _ I1),
    (player_resized W _ I).
  pose proof (inv_aspectRatio _ I) as A.
  generalize dependent (player (run es (constructor domElement devicePixelRatio))).
  intros p A.
  split; [|split; [|split; [|split; [|split]]]];
    cbn; rewrite ?A; reflexivity.
Qed.

(** ** Showing and hiding *)

(** X7.  While the container is hidden it measures 0, and a resize then
    collapses the viewport: the width and the height are 0, the renderer
    has the size 0 by 0 and the aspect ratio of the camera is 0 / 0, NaN.
    The same resize sets the style attribute anew, with [display:block],
    which drops the [none] of [hide].  The next resize at which the
    container measures a positive width gives the viewport its height and
    the camera the aspect ratio 16 / 9 again. *)
Theorem resize_of_hidden_container domElement devicePixelRatio es W :
  (0 < W <= widest)%Z ->
  let w := run es (constructor domElement devicePixelRatio) in
  let w1 := step (window_resized 0) (hide w) in
  let w2 := step (window_resized W) w1 in
  style_display (container (player (hide w))) = Some [Lit "none"]
  /\ width (player w1) = 0%float
  /\ height (player w1) = Number 0%float
  /\ size_width (renderer (player w1)) = 0%float
  /\ size_height (renderer (player w1)) = 0%float
  /\ is_nan (aspect (camera (player w1))) = true
  /\ style_display (container (player w1)) = None
  /\ attr_style (container (player w1))
     = Some [Lit "display:block; height:"; Str (height (player w)); Lit "px"]
  /\ height (player w2) = Number (num_of_Z W / (16 / 9))%float
  /\ aspect (camera (player w2)) = (16 / 9)%float.
Proof.
  intros HW. cbv zeta.
  assert (invariant (run es (constructor domElement devicePixelRatio))) as I
    by apply invariant_run, invariant_constructor.
  assert (invariant (hide (run es (constructor domElement devicePixelRatio))))
    as Ih by exact (invariant_step calls_hide _ I).
  pose proof (invariant_step (window_resized 0) _ Ih) as I1.
  pose proof (inv_aspectRatio _ I) as A.
  split; [reflexivity|].
  rewrite (player_resized W _ I1), (player_resized 0 _ Ih).
  split; [reflexivity|].
  cbn. rewrite A.
  split; [reflexivity|]. split; [reflexivity|]. split; [reflexivity|].
  split; [reflexivity|]. split; [reflexivity|]. split; [reflexivity|].
  split; [reflexivity|].
  apply sixteen_ninths_up_to_widest. exact HW.
Qed.

Lemma resize_of_hidden_container_witness :
  let w1 := step (window_resized 0) (hide sample_page) in
  let w2 := step (window_resized 800) w1 in
  width (player w1) = 0%float
  /\ height (player w1) = Number 0%float
  /\ is_nan (aspect (camera (player w1))) = true
  /\ height (player w2) = Number 450%float
  /\ aspect (camera (player w2)) = (16 / 9)%float.
Proof.
  cbv zeta.
  pose proof (resize_of_hidden_container sample_container 1%float [] 800
                ltac:(split; [reflexivity|discriminate])) as H.
  cbv zeta in H.
  destruct H as (_ & H1 & H2 & _ & _ & H3 & _ & _ & H4 & H5).
  split; [exact H1|]. split; [exact H2|]. split; [exact H3|].
  split; [exact H4|exact H5].
Defined.

(** X8.  Of [show] and [hide] the last call decides, and a repeated call
    changes nothing; but [show] does not give back what [hide] took: it
    sets [display] to [inherit], which the container did not have after the
    constructor. *)
Theorem show_and_hide_compose domElement devicePixelRatio w :
  let w0 := constructor domElement devicePixelRatio in
  show (hide w) = show w
  /\ hide (show w) = hide w
  /\ show (show w) = show w
  /\ hide (hide w) = hide w
  /\ style_display (container (player w0)) = None
  /\ show (hide w0) <> w0.
Proof.
  cbv zeta. split; [|split; [|split; [|split; [|split]]]]; try reflexivity.
  intros E.
  apply (f_equal (fun w => style_display (container (player w)))) in E.
  discriminate E.
Qed.

(** ** The console *)

Lemma step_load_progressed w i q progress :
  nth_error (loads w) i = Some q ->
  step (load_progressed i progress) w
  = run_logger (request_onProgress q) [Lit progress] w.
Proof.
  intros E. unfold step. now rewrite E.
Qed.

(** X9.  All the player ever prints after its start-up line are lines of
    loads, each through [console.log] as a progress callback: a line for
    each progress a geometry load reports, and the line of the manager of
    [loadObj] when its load has ended, which carries the url and the
    counts 1 and 1.  Progress of the material load of [loadMTL] prints
    nothing, the loads of [loadMTL] print nothing when they end, and the
    calls of [loadObj] and [loadMTL] print nothing themselves. *)
Theorem console_holds_loader_lines domElement devicePixelRatio es :
  let w := run es (constructor domElement devicePixelRatio) in
  (exists lines,
     console w = startup_line domElement :: lines
     /\ Forall loader_line lines)
  /\ (forall i q progress,
        nth_error (loads w) i = Some q ->
        console (step (load_progressed i progress) w)
        = match request_loader q with
          | OBJLoader => console w ++ [[Lit progress]]
          | MTLLoader => console w
          end
        /\ loads (step (load_progressed i progress) w) = loads w
        /\ player (step (load_progressed i progress) w) = player w
        /\ calls (step (load_progressed i progress) w) = calls w)
  /\ (forall i q r,
        nth_error (loads w) i = Some q ->
        loads_that (request_loader q) r = true ->
        console (step (load_completed i r) w)
        = match request_onLoad q with
          | loadObj_onLoad => console w ++ [item_end_line (request_url q)]
          | _ => console w
          end)
  /\ (forall url, console (loadObj url w) = console w)
  /\ (forall objUrl mtlUrl, console (loadMTL objUrl mtlUrl w) = console w).
Proof.
  cbv zeta.
  assert (invariant (run es (constructor domElement devicePixelRatio))) as I
    by apply invariant_run, invariant_constructor.
  split; [exact (kept_console _ _ _ (kept_reached _ _ es))|].
  split; [|split; [|split]]; try reflexivity.
  - intros i q progress E.
    rewrite (step_load_progressed _ i q progress E).
    destruct (nth_error_Forall _ _ _ _ (inv_loads _ I) E)
      as [(u & ->)|[(u & v & ->)|(u & m & ->)]];
      (split; [|split; [|split]]); reflexivity.
  - intros i q r E T. unfold step. rewrite E, T.
    destruct (nth_error_Forall _ _ _ _ (inv_loads _ I) E)
      as [(u & ->)|[(u & v & ->)|(u & m & ->)]];
      destruct r; try discriminate T; reflexivity.
Qed.

Lemma console_holds_loader_lines_witness :
  let w := run [calls_loadObj "model.obj"] sample_page in
  console (step (load_progressed 0 "50%") w)
  = [startup_line sample_container; [Lit "50%"]]
  /\ console (step (load_completed 0 (loaded_object sample_object)) w)
     = [startup_line sample_container; item_end_line "model.obj"].
Proof.
  cbv zeta.
  pose proof (console_holds_loader_lines sample_container 1%float
                [calls_loadObj "model.obj"]) as H.
  cbv zeta in H. destruct H as (_ & P & C & _).
  destruct (P 0 (loadObj_request "model.obj") "50%"%string eq_refl) as (H1 & _).
  pose proof (C 0 (loadObj_request "model.obj") (loaded_object sample_object)
                eq_refl eq_refl) as H2.
  split; [exact H1|exact H2].
Defined.

(** ** The scene *)

Lemma models_added_step e w :
  invariant w ->
  scene_children (scene (player (step e w)))
  = scene_children (scene (player w)) ++ map model_node (models_added e w)
  /\ times_emitted "model-loaded" (step e w)
     = times_emitted "model-loaded" w + List.length (models_added e w)
  /\ count_calls is_control_reset (step e w)
     = count_calls is_control_reset w + List.length (models_added e w).
Proof.
  intros I.
  assert (forall w' cs added,
            calls w' = calls w ++ cs ->
            scene_children (scene (player w'))
            = scene_children (scene (player w)) ++ map model_node added ->
            List.length (filter (String.eqb "model-loaded") (emissions cs))
            = List.length added ->
            List.length (filter is_control_reset cs) = List.length added ->
            scene_children (scene (player w'))
            = scene_children (scene (player w)) ++ map model_node added
            /\ times_emitted "model-loaded" w'
               = times_emitted "model-loaded" w + List.length added
            /\ count_calls is_control_reset w'
               = count_calls is_control_reset w + List.length added) as G.
  { intros w' cs added C S E R. split; [exact S|].
    rewrite (times_emitted_appended _ w w' cs C),
      (count_calls_appended _ w w' cs C), E, R. split; reflexivity. }
  destruct e; cbn [models_added].
  - eapply G; [appended|cbn; now rewrite app_nil_r|reflexivity|reflexivity].
  - eapply G; [appended|cbn; now rewrite app_nil_r|reflexivity|reflexivity].
  - eapply G; [appended|cbn; now rewrite app_nil_r|reflexivity|reflexivity].
  - eapply G; [appended|cbn; now rewrite app_nil_r|reflexivity|reflexivity].
  - eapply G; [appended|cbn; now rewrite app_nil_r|reflexivity|reflexivity].
  - eapply G; [appended|cbn; now rewrite app_nil_r|reflexivity|reflexivity].
  - rewrite step_window_resized by apply I.
    eapply G; [appended|cbn; now rewrite app_nil_r|reflexivity|reflexivity].
  - unfold step. rewrite dispatch_mousemove by apply I.
    eapply G; [appended|cbn; now rewrite app_nil_r|reflexivity|reflexivity].
  - unfold step. rewrite run_frame_callbacks_closed.
    eapply G; [reflexivity|cbn; now rewrite app_nil_r| |].
    + now rewrite emissions_setTimeout.
    + now rewrite filter_constant_map.
  - unfold step. destruct (nth_error (timers w) i) as [[[] delay]|].
    + eapply G;
        [appended|cbn; now rewrite app_nil_r|reflexivity|reflexivity].
    + eapply G;
        [appended|cbn; now rewrite app_nil_r|reflexivity|reflexivity].
  - unfold step. destruct (nth_error (loads w) i) as [q|].
    + destruct (run_logger_prints (request_onProgress q) [Lit progress] w)
        as (P & _ & _ & _ & _ & _ & C).
      eapply G; [rewrite C; symmetry; apply app_nil_r
                |rewrite P; cbn; now rewrite app_nil_r
                |reflexivity|reflexivity].
    + eapply G;
        [appended|cbn; now rewrite app_nil_r|reflexivity|reflexivity].
  - unfold step. destruct (nth_error (loads w) i) as [q|] eqn:E.
    + pose proof (nth_error_Forall _ _ _ _ (inv_loads _ I) E) as M.
      unfold andThen.
      rewrite (proj2 (no_error_handler q [] _ M)).
      rewrite (proj1 (no_error_handler q [Lit error] _ M)).
      destruct (item_ended_prints q (set_loads (remove_nth i (loads w)) w))
        as (P & _ & _ & _ & _ & _ & C).
      eapply G; [rewrite C; symmetry; apply app_nil_r
                |rewrite P; cbn; now rewrite app_nil_r
                |reflexivity|reflexivity].
    + eapply G;
        [appended|cbn; now rewrite app_nil_r|reflexivity|reflexivity].
  - unfold step. destruct (nth_error (loads w) i) as [q|] eqn:E.
    + pose proof (nth_error_Forall _ _ _ _ (inv_loads _ I) E) as M.
      destruct M as [(u & ->)|[(u & v & ->)|(u & m & ->)]];
        destruct r as [o|m'];
        cbn [loads_that request_loader loadObj_request
             loadMTL_materials_request loadMTL_object_request];
        try (eapply G;
             [appended|cbn; now rewrite app_nil_r|reflexivity|reflexivity]).
      * eapply G; [appended| |reflexivity|reflexivity]. reflexivity.
      * eapply G; [appended| |reflexivity|reflexivity]. reflexivity.
    + destruct r as [o|m'];
        eapply G;
        [appended|cbn; now rewrite app_nil_r|reflexivity|reflexivity
        |appended|cbn; now rewrite app_nil_r|reflexivity|reflexivity].
Qed.

Lemma loaded_models_run es :
  forall w,
    invariant w ->
    scene_children (scene (player (run es w)))
    = scene_children (scene (player w))
      ++ map model_node (loaded_models es w)
    /\ times_emitted "model-loaded" (run es w)
       = times_emitted "model-loaded" w + List.length (loaded_models es w)
    /\ count_calls is_control_reset (run es w)
       = count_calls is_control_reset w + List.length (loaded_models es w).
Proof.
  induction es as [|e es IH]; intros w I; cbn [run loaded_models].
  - cbn. rewrite app_nil_r. repeat split; lia.
  - unfold andThen.
    destruct (IH (step e w) (invariant_step e w I)) as (S & T & R).
    destruct (models_added_step e w I) as (S' & T' & R').
    rewrite S, T, R, S', T', R', map_app, length_app, <- app_assoc.
    repeat split; lia.
Qed.

(** X10.  The scene holds the ambient light and the camera the constructor
    gave it, then the loaded models: for each geometry load that has
    completed, the object it loaded, lowered, in the order the loads
    completed.  Nothing is ever taken out of the scene; there are as many
    models as ["model-loaded"] was emitted, and as the controls were
    reset. *)
Theorem scene_holds_loaded_models domElement devicePixelRatio es :
  let w0 := constructor domElement devicePixelRatio in
  let w := run es w0 in
  scene_children (scene (player w))
  = constructor_scene ++ map model_node (loaded_models es w0)
  /\ List.length (loaded_models es w0) = times_emitted "model-loaded" w
  /\ List.length (loaded_models es w0) = count_calls is_control_reset w.
Proof.
  cbv zeta.
  destruct (loaded_models_run es _
              (invariant_constructor domElement devicePixelRatio))
    as (S & T & R).
  rewrite S, T, R. split; [reflexivity|]. split; reflexivity.
Qed.

Lemma nth_error_after {A : Type} (l : list A) x r :
  nth_error (l ++ x :: r) (List.length l) = Some x.
Proof.
  induction l as [|y l IH]; cbn; auto.
Qed.

Lemma remove_nth_after {A : Type} (l : list A) x r :
  remove_nth (List.length l) (l ++ x :: r) = l ++ r.
Proof.
  unfold remove_nth. induction l as [|y l IH]; cbn; auto.
  now f_equal.
Qed.

(** X11.  Two loads in flight at once are not put in order: when the load
    begun second completes first, its model comes first in the scene. *)
Theorem overlapping_loads_complete_in_any_order w url1 url2 o1 o2 :
  let n := List.length (loads w) in
  let w' :=
    run [calls_loadObj url1; calls_loadObj url2;
         load_completed (S n) (loaded_object o2);
         load_completed n (loaded_object o1)] w in
  scene_children (scene (player w'))
  = scene_children (scene (player w))
    ++ [model_node (lowered o2); model_node (lowered o1)]
  /\ loads w' = loads w
  /\ emissions (calls w')
     = emissions (calls w) ++ ["model-loaded"%string; "model-loaded"%string].
Proof.
  cbv zeta. cbn [run]. unfold andThen.
  change (step (calls_loadObj url2) (step (calls_loadObj url1) w))
    with (loadObj url2 (loadObj url1 w)).
  set (w2 := loadObj url2 (loadObj url1 w)).
  assert (loads w2
          = (loads w ++ [loadObj_request url1]) ++ [loadObj_request url2])
    as L by reflexivity.
  assert (List.length (loads w ++ [loadObj_request url1])
          = S (List.length (loads w))) as N
    by (rewrite length_app; cbn; lia).
  rewrite (step_loadObj_completed w2 _ url2)
    by (rewrite L, <- N; apply nth_error_after).
  rewrite L, <- N, remove_nth_after, app_nil_r.
  set (w3 := console_log_line _ (loadObj_loaded o2 _)).
  assert (loads w3 = loads w ++ [loadObj_request url1]) as L3 by reflexivity.
  rewrite (step_loadObj_completed w3 _ url1)
    by (rewrite L3; apply nth_error_after).
  rewrite L3, remove_nth_after, app_nil_r.
  split; [|split].
  - cbn. rewrite <- app_assoc. reflexivity.
  - reflexivity.
  - cbn. rewrite <- !app_assoc, !emissions_app. cbn.
    reflexivity.
Qed.

(** Subtracting zero gives the number back, whatever it is. *)
Lemma minus_zero (y : float) : (y - 0)%float = y.
Proof.
  apply Prim2SF_inj. rewrite FloatAxioms.sub_spec.
  change (Prim2SF 0%float) with (S754_zero false).
  destruct (Prim2SF y) as [[|]|[|]| |]; reflexivity.
Qed.

(** X12.  An object without vertices has an empty bounding box, whose size
    is zero: the completion callback adds it to the scene at the position
    it came with. *)
Theorem empty_object_is_not_moved w i url o :
  geometry o = [] ->
  nth_error (loads w) i = Some (loadObj_request url) ->
  isEmpty (setFromObject o) = true
  /\ getSize (setFromObject o) = origin
  /\ lowered o = o
  /\ scene_children
       (scene (player (step (load_completed i (loaded_object o)) w)))
     = scene_children (scene (player w)) ++ [model_node o].
Proof.
  intros G E.
  assert (setFromObject o = Box3_new) as B
    by (unfold setFromObject; rewrite G; reflexivity).
  assert (lowered o = o) as L.
  { unfold lowered. rewrite B.
    change (vy (getSize Box3_new) / 2)%float with 0%float.
    rewrite minus_zero. destruct o as [[x y z] g]. reflexivity. }
  split; [now rewrite B|]. split; [now rewrite B|]. split; [exact L|].
  rewrite (step_loadObj_completed w i url o E).
  cbn. fold (lowered o). now rewrite L.
Qed.

Lemma empty_object_is_not_moved_witness :
  let o := sample_empty_object in
  let w := loadObj "empty.obj" sample_page in
  scene_children
    (scene (player (step (load_completed 0 (loaded_object o)) w)))
  = scene_children (scene (player w)) ++ [model_node o].
Proof.
  cbv zeta.
  pose proof (empty_object_is_not_moved
                (loadObj "empty.obj" sample_page) 0 "empty.obj"
                sample_empty_object
                eq_refl eq_refl) as H.
  destruct H as (_ & _ & _ & H). exact H.
Defined.

(** ** The render logic *)

(** X13.  The render logic always runs as a whole and never without
    scheduling the next run: whatever the course of events, there are as
    many renders, updates of the controls and calls of [lookAt] as
    animation frames were requested, every [lookAt] has the origin for its
    target, and every frame requested has either set its timer or is still
    waiting. *)
Theorem render_logic_runs_whole domElement devicePixelRatio es :
  let w := run es (constructor domElement devicePixelRatio) in
  count_calls is_render w = count_calls is_requestAnimationFrame w
  /\ count_calls is_control_update w
     = count_calls is_requestAnimationFrame w
  /\ count_calls is_lookAt w = count_calls is_requestAnimationFrame w
  /\ Forall looks_at_origin (calls w)
  /\ count_calls is_requestAnimationFrame w
     = count_calls is_setTimeout w + List.length (frames w).
Proof.
  cbv zeta.
  destruct (kept_reached domElement devicePixelRatio es).
  split; [|split; [|split; [|split]]]; assumption.
Qed.

(** ** A whole load with materials *)

(** X14.  A [loadMTL] whose material load and then geometry load complete
    makes, in this order, the material load, the preload, the geometry load
    bound to the preloaded set, the addition to the scene, the reset of the
    controls and one emission of ["model-loaded"]; the scene has one more
    child, the lowered object, and no load is left in flight. *)
Theorem loadMTL_from_call_to_scene w objUrl mtlUrl m o :
  let n := List.length (loads w) in
  let w' :=
    run [calls_loadMTL objUrl mtlUrl;
         load_completed n (loaded_materials m);
         load_completed n (loaded_object o)] w in
  calls w'
  = calls w
    ++ [called_MTLLoader_load mtlUrl; called_preload m;
        called_setMaterials (preload m);
        called_OBJLoader_load objUrl (Some (preload m));
        called_scene_add (model_node (lowered o));
        called_control_reset; called_emit "model-loaded"]
  /\ scene_children (scene (player w'))
     = scene_children (scene (player w)) ++ [model_node (lowered o)]
  /\ loads w' = loads w.
Proof.
  cbv zeta. cbn [run]. unfold andThen.
  change (step (calls_loadMTL objUrl mtlUrl) w) with (loadMTL objUrl mtlUrl w).
  set (w1 := loadMTL objUrl mtlUrl w).
  assert (loads w1 = loads w ++ [loadMTL_materials_request objUrl mtlUrl])
    as L1 by reflexivity.
  rewrite (step_materials_completed w1 _ objUrl mtlUrl)
    by (rewrite L1; apply nth_error_after).
  rewrite L1, remove_nth_after, app_nil_r.
  set (w2 := loadMTL_materials_loaded _ _ _ _).
  assert (loads w2 = loads w ++ [loadMTL_object_request objUrl (preload m)])
    as L2 by reflexivity.
  rewrite (step_object_completed w2 _ objUrl (preload m))
    by (rewrite L2; apply nth_error_after).
  rewrite L2, remove_nth_after, app_nil_r.
  split; [|split].
  - cbn. rewrite <- !app_assoc. reflexivity.
  - reflexivity.
  - reflexivity.
Qed.
